(** * TrickHLA / SpaceFOM: entity packing, lag compensation, sync points

    A shallow embedding of
      - [SpaceFOM/PhysicalEntity.cpp]              (pack / unpack of entity state),
      - [SpaceFOM/PhysicalEntityLagCompInteg.cpp]  (integrator configuration check),
      - [SpaceFOM/DynamicalEntityLagCompBase.cpp]  (send / receive lag compensation),
      - [TrickHLA/Conditional.cpp]                 (default send condition),
      - [TrickHLA/TimedSyncPntList.hh]             (timed synchronization points),
    followed by the properties established about them.

    Conventions.
      - A C++ [double] is an IEEE-754 binary64 value: Rocq's primitive [float].
      - A [char *] is [option string]: [None] is the NULL pointer and [Some s]
        points to the bytes of [s], the terminating NUL being implicit.
      - A job either runs to completion, or ends the simulation through
        [DebugHandler::terminate_with_message], or hands NULL to a routine
        that dereferences it (undefined behaviour in C++). *)

From Stdlib Require Import Floats ZArith List String Ascii Bool Lia.
Import ListNotations.

Local Open Scope string_scope.

(* ================================================================== *)
(** * Outcomes of a job                                                *)
(* ================================================================== *)

Inductive outcome (A : Type) : Type :=
| Ok (a : A)
| Terminated (msg : string)   (* DebugHandler::terminate_with_message *)
| Fault.                      (* NULL handed to strcmp / mm_strdup / operator[] *)

Arguments Ok {A} a.
Arguments Terminated {A} msg.
Arguments Fault {A}.

Definition ret {A} (a : A) : outcome A := Ok a.

Definition bind {A B} (c : outcome A) (k : A -> outcome B) : outcome B :=
  match c with
  | Ok a => k a
  | Terminated m => Terminated m
  | Fault => Fault
  end.

Notation "x <- c ;; k" := (bind c (fun x => k))
  (at level 61, c at next level, right associativity).

Definition completes {A} (c : outcome A) : Prop := exists a, c = Ok a.

(** [for ( int iinc = 0; iinc < n; ++iinc ) body] over a state [S]. *)
Definition for_upto {S : Type} (n : nat) (body : nat -> S -> S) (s : S) : S :=
  fold_left (fun acc iinc => body iinc acc) (seq 0 n) s.

(* ================================================================== *)
(** * Numeric data                                                     *)
(* ================================================================== *)

Definition double := float.

(** [double v[3]]. Only the indices 0, 1, 2 are ever used by the code; a
    store outside that range (undefined in C++) is modelled as no change. *)
Record vec3 := Vec3 { v0 : double; v1 : double; v2 : double }.

Definition vget (v : vec3) (i : nat) : double :=
  match i with
  | O => v0 v
  | S O => v1 v
  | _ => v2 v
  end.

Definition vset (i : nat) (x : double) (v : vec3) : vec3 :=
  match i with
  | O => Vec3 x (v1 v) (v2 v)
  | S O => Vec3 (v0 v) x (v2 v)
  | S (S O) => Vec3 (v0 v) (v1 v) x
  | _ => v
  end.

(** [double m[3][3]], row major. *)
Record mat33 := Mat33 { r0 : vec3; r1 : vec3; r2 : vec3 }.

Definition mrow (m : mat33) (i : nat) : vec3 :=
  match i with
  | O => r0 m
  | S O => r1 m
  | _ => r2 m
  end.

Definition mget (m : mat33) (i j : nat) : double := vget (mrow m i) j.

Definition mset (i j : nat) (x : double) (m : mat33) : mat33 :=
  match i with
  | O => Mat33 (vset j x (r0 m)) (r1 m) (r2 m)
  | S O => Mat33 (r0 m) (vset j x (r1 m)) (r2 m)
  | S (S O) => Mat33 (r0 m) (r1 m) (vset j x (r2 m))
  | _ => m
  end.

Definition finite (x : double) : bool :=
  negb (PrimFloat.is_nan x || PrimFloat.is_infinity x).

Definition vec_finite (v : vec3) : bool :=
  finite (v0 v) && finite (v1 v) && finite (v2 v).

Definition mat_finite (m : mat33) : bool :=
  vec_finite (r0 m) && vec_finite (r1 m) && vec_finite (r2 m).

(* ================================================================== *)
(** * C strings and the Trick memory manager                           *)
(* ================================================================== *)

Module CStr.

Definition cstring := option string.

(** [strcmp] on two valid strings: only the sign of the result is
    specified by the C standard, and only zero / non-zero is inspected by
    the callers. *)
Definition strcmp_val (a b : string) : Z :=
  match String.compare a b with
  | Eq => 0
  | Lt => -1
  | Gt => 1
  end.

(** [strcmp( a, b )] on pointers: a NULL argument is undefined behaviour. *)
Definition strcmp (a b : cstring) : outcome Z :=
  match a, b with
  | Some x, Some y => Ok (strcmp_val x y)
  | _, _ => Fault
  end.

(** [trick_MM->mm_strdup( s )]: a fresh copy of the bytes of [s]; it takes
    the length of [s] first, so NULL is undefined behaviour. *)
Definition mm_strdup (s : cstring) : outcome cstring :=
  match s with
  | Some x => Ok (Some x)
  | None => Fault
  end.

(** [s[0]]: the first byte, NUL for the empty string. *)
Definition first_char (s : cstring) : outcome ascii :=
  match s with
  | Some EmptyString => Ok Ascii.zero
  | Some (String c _) => Ok c
  | None => Fault
  end.

Definition NUL : ascii := Ascii.zero.

End CStr.
Import CStr.

(* ================================================================== *)
(** * SpaceFOM data types                                              *)
(* ================================================================== *)

Record QuaternionData := mkQuat { scalar : double; vector : vec3 }.

Record SpaceTimeCoordinateData := mkSTC {
  pos : vec3;
  vel : vec3;
  quat : QuaternionData;
  ang_vel : vec3;
  time : double
}.

(** [PhysicalEntityData]: the type of both the working data
    ([*physical_data]) and the packing data ([pe_packing_data]). *)
Record PhysicalEntityData := mkPED {
  name : cstring;
  type : cstring;
  status : cstring;
  parent_frame : cstring;
  state : SpaceTimeCoordinateData;
  accel : vec3;
  rot_accel : vec3;
  cm : vec3;
  body_wrt_struct : QuaternionData
}.

(** Field updates, one per member written by the code. *)
Definition upd_scalar (x : double) (q : QuaternionData) : QuaternionData :=
  mkQuat x (vector q).
Definition upd_vector (f : vec3 -> vec3) (q : QuaternionData) : QuaternionData :=
  mkQuat (scalar q) (f (vector q)).

Definition upd_pos (f : vec3 -> vec3) (s : SpaceTimeCoordinateData) :=
  mkSTC (f (pos s)) (vel s) (quat s) (ang_vel s) (time s).
Definition upd_vel (f : vec3 -> vec3) (s : SpaceTimeCoordinateData) :=
  mkSTC (pos s) (f (vel s)) (quat s) (ang_vel s) (time s).
Definition upd_quat (f : QuaternionData -> QuaternionData) (s : SpaceTimeCoordinateData) :=
  mkSTC (pos s) (vel s) (f (quat s)) (ang_vel s) (time s).
Definition upd_ang_vel (f : vec3 -> vec3) (s : SpaceTimeCoordinateData) :=
  mkSTC (pos s) (vel s) (quat s) (f (ang_vel s)) (time s).
Definition upd_time (x : double) (s : SpaceTimeCoordinateData) :=
  mkSTC (pos s) (vel s) (quat s) (ang_vel s) x.

Definition set_name (x : cstring) (d : PhysicalEntityData) :=
  mkPED x (type d) (status d) (parent_frame d) (state d) (accel d)
        (rot_accel d) (cm d) (body_wrt_struct d).
Definition set_type (x : cstring) (d : PhysicalEntityData) :=
  mkPED (name d) x (status d) (parent_frame d) (state d) (accel d)
        (rot_accel d) (cm d) (body_wrt_struct d).
Definition set_status (x : cstring) (d : PhysicalEntityData) :=
  mkPED (name d) (type d) x (parent_frame d) (state d) (accel d)
        (rot_accel d) (cm d) (body_wrt_struct d).
Definition set_parent_frame (x : cstring) (d : PhysicalEntityData) :=
  mkPED (name d) (type d) (status d) x (state d) (accel d)
        (rot_accel d) (cm d) (body_wrt_struct d).
Definition upd_state (f : SpaceTimeCoordinateData -> SpaceTimeCoordinateData)
           (d : PhysicalEntityData) :=
  mkPED (name d) (type d) (status d) (parent_frame d) (f (state d)) (accel d)
        (rot_accel d) (cm d) (body_wrt_struct d).
Definition upd_accel (f : vec3 -> vec3) (d : PhysicalEntityData) :=
  mkPED (name d) (type d) (status d) (parent_frame d) (state d) (f (accel d))
        (rot_accel d) (cm d) (body_wrt_struct d).
Definition upd_rot_accel (f : vec3 -> vec3) (d : PhysicalEntityData) :=
  mkPED (name d) (type d) (status d) (parent_frame d) (state d) (accel d)
        (f (rot_accel d)) (cm d) (body_wrt_struct d).
Definition upd_cm (f : vec3 -> vec3) (d : PhysicalEntityData) :=
  mkPED (name d) (type d) (status d) (parent_frame d) (state d) (accel d)
        (rot_accel d) (f (cm d)) (body_wrt_struct d).
Definition upd_body_wrt_struct (f : QuaternionData -> QuaternionData)
           (d : PhysicalEntityData) :=
  mkPED (name d) (type d) (status d) (parent_frame d) (state d) (accel d)
        (rot_accel d) (cm d) (f (body_wrt_struct d)).

(* ================================================================== *)
(** * Attribute ownership records                                      *)
(* ================================================================== *)

(** Modelled from the spec: [TrickHLA::Attribute] (Attribute.hh is not part
    of the sources at hand).  The spec gives each logically named field the
    record {locally_owned, changed_since_send, received_this_cycle};
    [is_received()] and [is_changed()] are the read-only queries on it. *)
Record Attribute := mkAttr {
  locally_owned : bool;
  changed_since_send : bool;
  received_this_cycle : bool
}.

Definition is_received (a : Attribute) : bool := received_this_cycle a.
Definition is_changed (a : Attribute) : bool := changed_since_send a.

(** The attribute objects of one entity instance.  They are owned by the
    object manager; the entity and its lag compensator both hold pointers
    to the same records ([initialize_callback] copies the pointers), hence
    one shared store. *)
Record Attributes := mkAttrs {
  state_attr : Attribute;
  name_attr : Attribute;
  type_attr : Attribute;
  status_attr : Attribute;
  parent_frame_attr : Attribute;
  body_frame_attr : Attribute;
  force_attr : Attribute;
  torque_attr : Attribute;
  mass_attr : Attribute;
  mass_rate_attr : Attribute;
  inertia_attr : Attribute;
  inertia_rate_attr : Attribute
}.

(* ================================================================== *)
(** * SpaceFOM::PhysicalEntity                                         *)
(* ================================================================== *)

Definition deref {A} (p : option A) : outcome A :=
  match p with
  | Some x => Ok x
  | None => Fault
  end.

Module PhysicalEntity.

(** The object: [physical_data] points to the simulation's working data
    (NULL until [initialize]), [pe_packing_data] is the record exchanged
    with the federation. *)
Record entity := mkEntity {
  physical_data : option PhysicalEntityData;
  pe_packing_data : PhysicalEntityData
}.

Definition with_working (w : PhysicalEntityData) (e : entity) : entity :=
  mkEntity (Some w) (pe_packing_data e).
Definition with_packing (p : PhysicalEntityData) (e : entity) : entity :=
  mkEntity (physical_data e) p.

Definition msg_null_data : string :=
  "SpaceFOM::PhysicalEntity::initialize(): ERROR: Unexpected NULL PhysicalEntityData: ".
Definition msg_null_name : string :=
  "SpaceFOM::PhysicalEntity::copy_working_data(): ERROR: Unexpected NULL name for PhysicalEntity!".
Definition msg_null_frame : string :=
  "SpaceFOM::PhysicalEntity::copy_working_data(): ERROR: Unexpected NULL parent frame for PhysicalEntity: ".

(** [PhysicalEntity::initialize()].  [base_initialize] stands for
    [PhysicalEntityBase::initialize()], defined outside these sources. *)
Definition initialize (base_initialize : entity -> outcome entity)
           (e : entity) : outcome entity :=
  match physical_data e with
  | None => Terminated msg_null_data
  | Some _ => base_initialize e
  end.

(** [PhysicalEntity::initialize( PhysicalEntityData *physical_data_ptr )]. *)
Definition initialize_with (base_initialize : entity -> outcome entity)
           (physical_data_ptr : option PhysicalEntityData)
           (e : entity) : outcome entity :=
  match physical_data_ptr with
  | None => Terminated msg_null_data
  | Some _ =>
      initialize base_initialize (mkEntity physical_data_ptr (pe_packing_data e))
  end.

(** ** pack_from_working_data *)

(** The name and the parent frame: a NULL working string terminates the
    run; otherwise the packing string is replaced when [strcmp] reports a
    difference ([delete_var] then [mm_strdup]). *)
Definition pack_required (get : PhysicalEntityData -> cstring)
           (set : cstring -> PhysicalEntityData -> PhysicalEntityData)
           (msg : string)
           (w p : PhysicalEntityData) : outcome PhysicalEntityData :=
  match get w with
  | Some _ =>
      c <- strcmp (get w) (get p) ;;
      if negb (c =? 0)%Z then
        n <- mm_strdup (get w) ;; ret (set n p)
      else ret p
  | None => Terminated msg
  end.

(** The type and the status: both sides may be NULL. *)
Definition pack_optional (get : PhysicalEntityData -> cstring)
           (set : cstring -> PhysicalEntityData -> PhysicalEntityData)
           (w p : PhysicalEntityData) : outcome PhysicalEntityData :=
  match get w with
  | Some _ =>
      match get p with
      | Some _ =>
          c <- strcmp (get w) (get p) ;;
          if negb (c =? 0)%Z then
            n <- mm_strdup (get w) ;; ret (set n p)
          else ret p
      | None => n <- mm_strdup (get w) ;; ret (set n p)
      end
  | None =>
      match get p with
      | Some _ => ret (set None p)
      | None => ret p
      end
  end.

(** The numeric part of the pack, loop by loop. *)
Definition pack_numeric (scenario_time : double)
           (w p : PhysicalEntityData) : PhysicalEntityData :=
  let p := for_upto 3 (fun iinc p =>
             let p := upd_state (upd_pos (vset iinc (vget (pos (state w)) iinc))) p in
             upd_state (upd_vel (vset iinc (vget (vel (state w)) iinc))) p) p in
  let p := upd_state (upd_quat (upd_scalar (scalar (quat (state w))))) p in
  let p := for_upto 3 (fun iinc p =>
             let p := upd_state (upd_quat (upd_vector
                        (vset iinc (vget (vector (quat (state w))) iinc)))) p in
             upd_state (upd_ang_vel (vset iinc (vget (ang_vel (state w)) iinc))) p) p in
  let p := upd_state (upd_time scenario_time) p in
  let p := for_upto 3 (fun iinc p =>
             upd_accel (vset iinc (vget (accel w) iinc)) p) p in
  let p := for_upto 3 (fun iinc p =>
             upd_rot_accel (vset iinc (vget (rot_accel w) iinc)) p) p in
  let p := for_upto 3 (fun iinc p =>
             upd_cm (vset iinc (vget (cm w) iinc)) p) p in
  let p := upd_body_wrt_struct (upd_scalar (scalar (body_wrt_struct w))) p in
  for_upto 3 (fun iinc p =>
    upd_body_wrt_struct (upd_vector
      (vset iinc (vget (vector (body_wrt_struct w)) iinc))) p) p.

(** [scenario_time] is the value of [get_scenario_time()] during the job. *)
Definition pack_from_working_data (scenario_time : double)
           (e : entity) : outcome entity :=
  w <- deref (physical_data e) ;;
  p <- pack_required name set_name msg_null_name w (pe_packing_data e) ;;
  p <- pack_optional type set_type w p ;;
  p <- pack_optional status set_status w p ;;
  p <- pack_required parent_frame set_parent_frame msg_null_frame w p ;;
  ret (with_packing (pack_numeric scenario_time w p) e).

(** ** unpack_into_working_data *)

Definition unpack_state (a : Attributes) (e : entity) : outcome entity :=
  if is_received (state_attr a) then
    w <- deref (physical_data e) ;;
    let p := pe_packing_data e in
    let w := for_upto 3 (fun iinc w =>
               let w := upd_state (upd_pos (vset iinc (vget (pos (state p)) iinc))) w in
               upd_state (upd_vel (vset iinc (vget (vel (state p)) iinc))) w) w in
    let w := upd_state (upd_quat (upd_scalar (scalar (quat (state p))))) w in
    let w := for_upto 3 (fun iinc w =>
               let w := upd_state (upd_quat (upd_vector
                          (vset iinc (vget (vector (quat (state p))) iinc)))) w in
               upd_state (upd_ang_vel (vset iinc (vget (ang_vel (state p)) iinc))) w) w in
    let w := upd_state (upd_time (time (state p))) w in
    ret (with_working w e)
  else ret e.

(** The name, the type and the status are unpacked by three copies of the
    same block: the working string is replaced when it is NULL, or when
    [!strcmp( working, packing )] holds, that is when [strcmp] returns 0. *)
Definition unpack_string (attr : Attributes -> Attribute)
           (get : PhysicalEntityData -> cstring)
           (set : cstring -> PhysicalEntityData -> PhysicalEntityData)
           (a : Attributes) (e : entity) : outcome entity :=
  if is_received (attr a) then
    w <- deref (physical_data e) ;;
    let p := pe_packing_data e in
    match get w with
    | Some _ =>
        c <- strcmp (get w) (get p) ;;
        if (c =? 0)%Z then
          n <- mm_strdup (get p) ;; ret (with_working (set n w) e)
        else ret e
    | None =>
        n <- mm_strdup (get p) ;; ret (with_working (set n w) e)
    end
  else ret e.

Definition unpack_parent_frame (a : Attributes) (e : entity) : outcome entity :=
  if is_received (parent_frame_attr a) then
    w <- deref (physical_data e) ;;
    let p := pe_packing_data e in
    match parent_frame w with
    | Some _ =>
        c <- strcmp (parent_frame w) (parent_frame p) ;;
        if (c =? 0)%Z then
          ch <- first_char (parent_frame p) ;;
          if negb (Ascii.eqb ch NUL) then
            n <- mm_strdup (parent_frame p) ;;
            ret (with_working (set_parent_frame n w) e)
          else ret (with_working (set_parent_frame None w) e)
        else ret e
    | None =>
        ch <- first_char (parent_frame p) ;;
        if negb (Ascii.eqb ch NUL) then
          n <- mm_strdup (parent_frame p) ;;
          ret (with_working (set_parent_frame n w) e)
        else ret e
    end
  else ret e.

Definition unpack_body_frame (a : Attributes) (e : entity) : outcome entity :=
  if is_received (body_frame_attr a) then
    w <- deref (physical_data e) ;;
    let p := pe_packing_data e in
    let w := upd_body_wrt_struct (upd_scalar (scalar (body_wrt_struct p))) w in
    let w := for_upto 3 (fun iinc w =>
               upd_body_wrt_struct (upd_vector
                 (vset iinc (vget (vector (body_wrt_struct p)) iinc))) w) w in
    ret (with_working w e)
  else ret e.

Definition unpack_into_working_data (a : Attributes)
           (e : entity) : outcome entity :=
  e <- unpack_state a e ;;
  e <- unpack_string name_attr name set_name a e ;;
  e <- unpack_string type_attr type set_type a e ;;
  e <- unpack_string status_attr status set_status a e ;;
  e <- unpack_parent_frame a e ;;
  unpack_body_frame a e.

(** The members of the working data, and the attribute that gates each
    one in [unpack_into_working_data]; the accelerations and the centre
    of mass are not written by it at all. *)
Inductive field :=
| F_name | F_type | F_status | F_parent_frame
| F_pos | F_vel | F_quat | F_ang_vel | F_time
| F_accel | F_rot_accel | F_cm | F_body_wrt_struct.

Inductive value :=
| VStr (s : cstring)
| VVec (v : vec3)
| VQuat (q : QuaternionData)
| VNum (x : double).

Definition field_value (f : field) (d : PhysicalEntityData) : value :=
  match f with
  | F_name => VStr (name d)
  | F_type => VStr (type d)
  | F_status => VStr (status d)
  | F_parent_frame => VStr (parent_frame d)
  | F_pos => VVec (pos (state d))
  | F_vel => VVec (vel (state d))
  | F_quat => VQuat (quat (state d))
  | F_ang_vel => VVec (ang_vel (state d))
  | F_time => VNum (time (state d))
  | F_accel => VVec (accel d)
  | F_rot_accel => VVec (rot_accel d)
  | F_cm => VVec (cm d)
  | F_body_wrt_struct => VQuat (body_wrt_struct d)
  end.

Definition gating_attr (f : field) : option (Attributes -> Attribute) :=
  match f with
  | F_name => Some name_attr
  | F_type => Some type_attr
  | F_status => Some status_attr
  | F_parent_frame => Some parent_frame_attr
  | F_pos | F_vel | F_quat | F_ang_vel | F_time => Some state_attr
  | F_body_wrt_struct => Some body_frame_attr
  | F_accel | F_rot_accel | F_cm => None
  end.

Definition field_received (a : Attributes) (f : field) : bool :=
  match gating_attr f with
  | Some attr => is_received (attr a)
  | None => false
  end.

Definition is_numeric (f : field) : bool :=
  match f with
  | F_name | F_type | F_status | F_parent_frame => false
  | _ => true
  end.

(** The packing record once [PhysicalEntityBase::initialize] has run: its
    name and parent frame point to strings. *)
Definition packing_ready (p : PhysicalEntityData) : Prop :=
  name p <> None /\ parent_frame p <> None.

End PhysicalEntity.

(* ================================================================== *)
(** * SpaceFOM::PhysicalEntityLagCompInteg                             *)
(* ================================================================== *)

Module PhysicalEntityLagCompInteg.

Definition msg_tolerance : string :=
  "SpaceFOM::PhysicalEntityLagCompInteg::initialize(): ERROR: Tolerance must be less that the dt!".

Section Initialize.

(** The state of the object, and [PhysicalEntityLagCompBase::initialize()],
    which is defined outside these sources. *)
Variable Obj : Type.
Variable base_initialize : Obj -> outcome Obj.

(** [integ_dt] and [integ_tol] are the members inherited from
    [TrickHLA::LagCompensationInteg]. *)
Definition initialize (integ_dt integ_tol : double) (o : Obj) : outcome Obj :=
  if PrimFloat.ltb integ_dt integ_tol then
    Terminated msg_tolerance
  else
    base_initialize o.

End Initialize.

End PhysicalEntityLagCompInteg.

(* ================================================================== *)
(** * SpaceFOM::DynamicalEntityLagCompBase                             *)
(* ================================================================== *)

(** The members of [de_packing_data] used by the lag compensator. *)
Module DynamicalEntityData.

Record t := mk {
  force : vec3;
  torque : vec3;
  mass : double;
  mass_rate : double;
  inertia : mat33;
  inertia_rate : mat33
}.

Definition upd_force (f : vec3 -> vec3) (d : t) : t :=
  mk (f (force d)) (torque d) (mass d) (mass_rate d) (inertia d) (inertia_rate d).
Definition upd_torque (f : vec3 -> vec3) (d : t) : t :=
  mk (force d) (f (torque d)) (mass d) (mass_rate d) (inertia d) (inertia_rate d).
Definition set_mass (x : double) (d : t) : t :=
  mk (force d) (torque d) x (mass_rate d) (inertia d) (inertia_rate d).
Definition set_mass_rate (x : double) (d : t) : t :=
  mk (force d) (torque d) (mass d) x (inertia d) (inertia_rate d).
Definition upd_inertia (f : mat33 -> mat33) (d : t) : t :=
  mk (force d) (torque d) (mass d) (mass_rate d) (f (inertia d)) (inertia_rate d).
Definition upd_inertia_rate (f : mat33 -> mat33) (d : t) : t :=
  mk (force d) (torque d) (mass d) (mass_rate d) (inertia d) (f (inertia_rate d)).

End DynamicalEntityData.

(** The entity a dynamical lag compensator is attached to
    ([DynamicalEntityBase &]), through the virtual members and the data the
    compensator uses.  The unpack reads the ownership store; nothing here
    can write it. *)
Class DynamicalEntityBase (Entity : Type) := {
  pack_from_working_data : double -> Entity -> outcome Entity;
  unpack_into_working_data : Attributes -> Entity -> outcome Entity;
  get_time : Entity -> double;
  de_packing_data : Entity -> DynamicalEntityData.t;
  set_de_packing_data : DynamicalEntityData.t -> Entity -> Entity
}.

(** What the scheduling executive provides during a job:
    [get_scenario_time()] and [get_lookahead().get_time_in_seconds()]. *)
Record exec_env := mkEnv {
  scenario_time : double;
  lookahead : double
}.

Module DynamicalEntityLagCompBase.

(** Observable calls made by a job. *)
Inductive event :=
| Compensate (begin_t end_t : double)   (* this->compensate( begin_t, end_t ) *)
| InvertSymm (m : mat33)                (* dm_invert_symm( inertia_inv, m ) *)
| SendHs (msg : string).                (* send_hs( stderr, msg ) *)

Definition msg_singular : string :=
  "SpaceFOM::DynamicalEntityLagCompInteg::receive_lag_compensation(): ERROR: Singular inertia matrix! Inversion failed!".

(** Trick's [M_INIT( mat )]: every entry set to 0.0. *)
Definition M_INIT (m : mat33) : mat33 :=
  let z := Vec3 0%float 0%float 0%float in Mat33 z z z.

Section LagComp.

Variable Entity : Type.
Context {EntityOps : DynamicalEntityBase Entity}.

(** The part of the object inherited from [PhysicalEntityLagCompBase]
    ([lag_comp_data], [Q_dot], ...) with the inherited routines that work
    on it; they are defined outside these sources. *)
Variable Base : Type.
Variable base_load_lag_comp_data : Entity -> Base -> Base.
Variable base_unload_lag_comp_data : Base -> Entity -> Entity.
Variable derivative_first : Base -> Base.

(** The members of the compensator itself. *)
Record lagcomp := mkLagComp {
  base : Base;
  compensate_dt : double;
  force : vec3;
  torque : vec3;
  mass : double;
  mass_rate : double;
  inertia : mat33;
  inertia_rate : mat33;
  inertia_inv : mat33
}.

Definition upd_base (f : Base -> Base) (l : lagcomp) : lagcomp :=
  mkLagComp (f (base l)) (compensate_dt l) (force l) (torque l) (mass l)
            (mass_rate l) (inertia l) (inertia_rate l) (inertia_inv l).
Definition set_compensate_dt (x : double) (l : lagcomp) : lagcomp :=
  mkLagComp (base l) x (force l) (torque l) (mass l)
            (mass_rate l) (inertia l) (inertia_rate l) (inertia_inv l).
Definition upd_force (f : vec3 -> vec3) (l : lagcomp) : lagcomp :=
  mkLagComp (base l) (compensate_dt l) (f (force l)) (torque l) (mass l)
            (mass_rate l) (inertia l) (inertia_rate l) (inertia_inv l).
Definition upd_torque (f : vec3 -> vec3) (l : lagcomp) : lagcomp :=
  mkLagComp (base l) (compensate_dt l) (force l) (f (torque l)) (mass l)
            (mass_rate l) (inertia l) (inertia_rate l) (inertia_inv l).
Definition set_mass (x : double) (l : lagcomp) : lagcomp :=
  mkLagComp (base l) (compensate_dt l) (force l) (torque l) x
            (mass_rate l) (inertia l) (inertia_rate l) (inertia_inv l).
Definition set_mass_rate (x : double) (l : lagcomp) : lagcomp :=
  mkLagComp (base l) (compensate_dt l) (force l) (torque l) (mass l)
            x (inertia l) (inertia_rate l) (inertia_inv l).
Definition upd_inertia (f : mat33 -> mat33) (l : lagcomp) : lagcomp :=
  mkLagComp (base l) (compensate_dt l) (force l) (torque l) (mass l)
            (mass_rate l) (f (inertia l)) (inertia_rate l) (inertia_inv l).
Definition upd_inertia_rate (f : mat33 -> mat33) (l : lagcomp) : lagcomp :=
  mkLagComp (base l) (compensate_dt l) (force l) (torque l) (mass l)
            (mass_rate l) (inertia l) (f (inertia_rate l)) (inertia_inv l).
Definition set_inertia_inv (m : mat33) (l : lagcomp) : lagcomp :=
  mkLagComp (base l) (compensate_dt l) (force l) (torque l) (mass l)
            (mass_rate l) (inertia l) (inertia_rate l) m.

(** [compensate] is virtual and defined by the concrete compensator; it
    works on the members of the compensator. *)
Variable compensate : double -> double -> lagcomp -> lagcomp.

(** Trick's [dm_invert_symm( inv, m )]: the status it returns and the
    content it leaves in [inv]; [TM_SUCCESS] is its success status. *)
Variable dm_invert_symm : mat33 -> mat33 -> Z * mat33.
Variable TM_SUCCESS : Z.

(** Everything a job of the compensator can reach: the shared ownership
    store, the entity, the compensator, and the calls observed so far. *)
Record world := mkWorld {
  attrs : Attributes;
  entity : Entity;
  lc : lagcomp;
  calls : list event
}.

Definition with_lc (l : lagcomp) (w : world) : world :=
  mkWorld (attrs w) (entity w) l (calls w).
Definition with_entity (e : Entity) (w : world) : world :=
  mkWorld (attrs w) e (lc w) (calls w).
Definition observe (ev : event) (w : world) : world :=
  mkWorld (attrs w) (entity w) (lc w) (calls w ++ [ev]).

(** [DynamicalEntityLagCompBase::load_lag_comp_data()]. *)
Definition load_lag_comp_data (e : Entity) (l : lagcomp) : lagcomp :=
  let l := upd_base (base_load_lag_comp_data e) l in
  let d := de_packing_data e in
  let l := set_mass (DynamicalEntityData.mass d) l in
  let l := set_mass_rate (DynamicalEntityData.mass_rate d) l in
  for_upto 3 (fun iinc l =>
    let l := upd_force (vset iinc (vget (DynamicalEntityData.force d) iinc)) l in
    let l := upd_torque (vset iinc (vget (DynamicalEntityData.torque d) iinc)) l in
    for_upto 3 (fun jinc l =>
      let l := upd_inertia
                 (mset iinc jinc (mget (DynamicalEntityData.inertia d) iinc jinc)) l in
      upd_inertia_rate
        (mset iinc jinc (mget (DynamicalEntityData.inertia_rate d) iinc jinc)) l) l) l.

(** [DynamicalEntityLagCompBase::unload_lag_comp_data()]. *)
Definition unload_lag_comp_data (l : lagcomp) (e : Entity) : Entity :=
  let e := base_unload_lag_comp_data (base l) e in
  let d := de_packing_data e in
  let d := DynamicalEntityData.set_mass (mass l) d in
  let d := DynamicalEntityData.set_mass_rate (mass_rate l) d in
  let d :=
    for_upto 3 (fun iinc d =>
      let d := DynamicalEntityData.upd_force (vset iinc (vget (force l) iinc)) d in
      let d := DynamicalEntityData.upd_torque (vset iinc (vget (torque l) iinc)) d in
      for_upto 3 (fun jinc d =>
        let d := DynamicalEntityData.upd_inertia
                   (mset iinc jinc (mget (inertia l) iinc jinc)) d in
        DynamicalEntityData.upd_inertia_rate
          (mset iinc jinc (mget (inertia_rate l) iinc jinc)) d) d) d in
  set_de_packing_data d e.

(** Load, first derivative of the attitude quaternion, compensation: the
    three calls common to both directions.  The output written to [cout]
    under [debug] or the debug handler has no effect on the data and is
    left out. *)
Definition load_and_compensate (begin_t end_t : double) (w : world) : world :=
  let l := load_lag_comp_data (entity w) (lc w) in
  let l := upd_base derivative_first l in
  observe (Compensate begin_t end_t) (with_lc (compensate begin_t end_t l) w).

(** [send_lag_compensation()]. *)
Definition send_lag_compensation (env : exec_env) (w : world) : outcome world :=
  let begin_t := scenario_time env in
  let w := with_lc (set_compensate_dt (lookahead env) (lc w)) w in
  let end_t := (begin_t + compensate_dt (lc w))%float in
  e <- pack_from_working_data (scenario_time env) (entity w) ;;
  let w := with_entity e w in
  let w := load_and_compensate begin_t end_t w in
  ret (with_entity (unload_lag_comp_data (lc w) (entity w)) w).

(** The state branch of the receive: lines 218-247. *)
Definition compensate_received_state (data_t end_t : double) (w : world) : world :=
  if is_received (state_attr (attrs w)) then
    load_and_compensate data_t end_t w
  else
    w.

(** The inertia branch of the receive: lines 248-258. *)
Definition invert_received_inertia (w : world) : world :=
  if is_received (inertia_attr (attrs w)) then
    let m := inertia (lc w) in
    let '(rc, inv) := dm_invert_symm (inertia_inv (lc w)) m in
    let w := observe (InvertSymm m) (with_lc (set_inertia_inv inv (lc w)) w) in
    if negb (rc =? TM_SUCCESS)%Z then
      let w := observe (SendHs msg_singular) w in
      with_lc (set_inertia_inv (M_INIT (inertia_inv (lc w))) (lc w)) w
    else
      w
  else
    w.

(** The receive up to and including the state branch. *)
Definition receive_state_part (env : exec_env) (w : world) : world :=
  let end_t := scenario_time env in
  let data_t := get_time (entity w) in
  let w := with_lc (set_compensate_dt (end_t - data_t)%float (lc w)) w in
  compensate_received_state data_t end_t w.

(** The receive before its last two calls. *)
Definition receive_compensated (env : exec_env) (w : world) : world :=
  invert_received_inertia (receive_state_part env w).

(** [receive_lag_compensation()]. *)
Definition receive_lag_compensation (env : exec_env) (w : world) : outcome world :=
  let w := receive_compensated env w in
  let w := with_entity (unload_lag_comp_data (lc w) (entity w)) w in
  e <- unpack_into_working_data (attrs w) (entity w) ;;
  ret (with_entity e w).

(** [bypass_send_lag_compensation()] and [bypass_receive_lag_compensation()]. *)
Definition bypass_send_lag_compensation (env : exec_env) (w : world) : outcome world :=
  e <- pack_from_working_data (scenario_time env) (entity w) ;;
  ret (with_entity e w).

Definition bypass_receive_lag_compensation (w : world) : outcome world :=
  e <- unpack_into_working_data (attrs w) (entity w) ;;
  ret (with_entity e w).

(** The events a job added to the record of calls. *)
Definition is_compensate (ev : event) : bool :=
  match ev with Compensate _ _ => true | _ => false end.
Definition is_invert (ev : event) : bool :=
  match ev with InvertSymm _ => true | _ => false end.

End LagComp.

End DynamicalEntityLagCompBase.

(* ================================================================== *)
(** * TrickHLA::Conditional                                            *)
(* ================================================================== *)

Module Conditional.

Section Conditional.

(** [TrickHLA::Object], only ever held by pointer here. *)
Variable Object : Type.

Record conditional := mkConditional {
  object : option Object
}.

(** The constructor: [object( NULL )]. *)
Definition construct : conditional := mkConditional None.

Definition initialize_callback (obj : option Object) (c : conditional) : conditional :=
  mkConditional obj.

(** [Conditional::should_send( Attribute *attr )], the default
    implementation of the virtual member. *)
Definition should_send (c : conditional) (attr : option Attribute) : bool := true.

End Conditional.

End Conditional.

(* ================================================================== *)
(** * TrickHLA::TimedSyncPntList                                       *)
(* ================================================================== *)

Module TimedSyncPntList.

(** Modelled from the spec: [Int64Time].  The header only names the type; a
    time is taken as a whole number of microseconds, so that 10.0 s is
    10000000 and 9.9 s is 9900000. *)
Definition Int64Time := Z.

Definition seconds (whole micro : Z) : Int64Time := (whole * 1000000 + micro)%Z.

(** Modelled from the spec: a synchronization point of the registry
    (TimedSyncPntList.cpp and the sync point classes are not part of the
    sources at hand).  The spec gives each point a label, an optional
    target time, and the fact of having been achieved. *)
Record TimedSyncPnt := mkSyncPnt {
  label : string;
  target_time : option Int64Time;
  achieved : bool
}.

(** The list is append-ordered. *)
Definition sync_pnt_list := list TimedSyncPnt.

(** Modelled from the spec: [add(label)] and [add(label, target_time)]
    ([add_sync_pnt] in the header, defined in TimedSyncPntList.cpp). *)
Definition add_sync_pnt (l : string) (ps : sync_pnt_list) : sync_pnt_list :=
  (ps ++ [mkSyncPnt l None false])%list.

Definition add_sync_pnt_at (l : string) (t : Int64Time) (ps : sync_pnt_list)
  : sync_pnt_list :=
  (ps ++ [mkSyncPnt l (Some t) false])%list.

(** Modelled from the spec: readiness of one point, in the spec's words
    true once current_time >= target_time, or immediately for time-less
    points once externally marked achieved. *)
Definition ready (p : TimedSyncPnt) (current_time : Int64Time) : bool :=
  match target_time p with
  | Some t => (t <=? current_time)%Z
  | None => achieved p
  end.

(** Modelled from the spec: [is_ready(label, current_time)], the readiness
    of the first point carrying the label. *)
Definition is_ready (ps : sync_pnt_list) (l : string) (current_time : Int64Time) : bool :=
  match find (fun p => String.eqb (label p) l) ps with
  | Some p => ready p current_time
  | None => false
  end.

(** Modelled from the spec: a point is eligible when it has not been
    achieved and is ready. *)
Definition eligible (p : TimedSyncPnt) (current_time : Int64Time) : bool :=
  negb (achieved p) && ready p current_time.

Definition achieve (p : TimedSyncPnt) : TimedSyncPnt :=
  mkSyncPnt (label p) (target_time p) true.

(** Modelled from the spec: [achieve_all(current_time)]
    ([achieve_all_sync_pnts( rti_ambassador, checkTime )] in the header,
    defined in TimedSyncPntList.cpp): every eligible point is marked
    achieved, and the result tells whether at least one changed. *)
Fixpoint achieve_all_sync_pnts_at (checkTime : Int64Time) (ps : sync_pnt_list)
  : sync_pnt_list * bool :=
  match ps with
  | [] => ([], false)
  | p :: rest =>
      let '(rest', any) := achieve_all_sync_pnts_at checkTime rest in
      if eligible p checkTime then (achieve p :: rest', true)
      else (p :: rest', any)
  end.

(** Modelled from the spec: [check_sync_pnts( checkTime )], whether a point
    is ready to be cleared. *)
Definition check_sync_pnts (checkTime : Int64Time) (ps : sync_pnt_list) : bool :=
  existsb (fun p => eligible p checkTime) ps.

(** [achieve_all_sync_pnts( rti_ambassador )], inline in the header: the
    timed version at time 0.0. *)
Definition achieve_all_sync_pnts (ps : sync_pnt_list) : sync_pnt_list * bool :=
  let time : Int64Time := 0%Z in
  achieve_all_sync_pnts_at time ps.

End TimedSyncPntList.

(* ================================================================== *)
(** * Vocabulary of the statements about PhysicalEntity                *)
(* ================================================================== *)

Module PhysicalEntitySpec.
Import PhysicalEntity.

(** The record a completed pack leaves in [pe_packing_data]: the working
    data, with the scenario time as time tag. *)
Definition packed_image (t : double) (w : PhysicalEntityData) : PhysicalEntityData :=
  upd_state (upd_time t) w.

Definition keeps_unreceived (a : Attributes) (w w' : PhysicalEntityData) : Prop :=
  forall f, field_received a f = false -> field_value f w' = field_value f w.

(** The members a block of the unpack may write. *)
Definition state_members (f : field) : bool :=
  match f with
  | F_pos | F_vel | F_quat | F_ang_vel | F_time => true
  | _ => false
  end.
Definition name_member (f : field) : bool :=
  match f with F_name => true | _ => false end.
Definition type_member (f : field) : bool :=
  match f with F_type => true | _ => false end.
Definition status_member (f : field) : bool :=
  match f with F_status => true | _ => false end.
Definition parent_frame_member (f : field) : bool :=
  match f with F_parent_frame => true | _ => false end.
Definition body_frame_member (f : field) : bool :=
  match f with F_body_wrt_struct => true | _ => false end.

(** [step] keeps the packing record, keeps the working data bound, and
    changes no member of it outside [own]. *)
Definition writes_only (own : field -> bool) (step : entity -> outcome entity) : Prop :=
  forall e e' w,
    physical_data e = Some w -> step e = Ok e' ->
    pe_packing_data e' = pe_packing_data e /\
    exists w', physical_data e' = Some w' /\
               forall f, own f = false -> field_value f w' = field_value f w.

Definition frame_step (a : Attributes) (step : entity -> outcome entity) : Prop :=
  forall e e' w,
    physical_data e = Some w -> step e = Ok e' ->
    pe_packing_data e' = pe_packing_data e /\
    exists w', physical_data e' = Some w' /\ keeps_unreceived a w w'.

(** The strings the transport layer delivered are present: for every
    string attribute received this cycle the packing record holds a
    string, not NULL. *)
Definition received_strings_present (a : Attributes) (p : PhysicalEntityData) : Prop :=
  (is_received (name_attr a) = true -> name p <> None) /\
  (is_received (type_attr a) = true -> type p <> None) /\
  (is_received (status_attr a) = true -> status p <> None) /\
  (is_received (parent_frame_attr a) = true -> parent_frame p <> None).

Definition all_received (a : Attributes) : Prop :=
  is_received (state_attr a) = true /\
  is_received (name_attr a) = true /\
  is_received (type_attr a) = true /\
  is_received (status_attr a) = true /\
  is_received (parent_frame_attr a) = true /\
  is_received (body_frame_attr a) = true.

End PhysicalEntitySpec.

(* ================================================================== *)
(** * Value-level description of the unpack                            *)
(* ================================================================== *)

Module UnpackSpec.
Import PhysicalEntity.

(** No attribute of the entity was received this cycle. *)
Definition none_received (a : Attributes) : Prop :=
  is_received (state_attr a) = false /\
  is_received (name_attr a) = false /\
  is_received (type_attr a) = false /\
  is_received (status_attr a) = false /\
  is_received (parent_frame_attr a) = false /\
  is_received (body_frame_attr a) = false.

(** The first byte of a string is not NUL. *)
Definition starts_with_byte (q : string) : bool :=
  match q with
  | EmptyString => false
  | String c _ => negb (Ascii.eqb c NUL)
  end.

(** The name, type or status after the unpack, from the received flag, the
    working string before and the packed string. *)
Definition string_after (received : bool) (working packed : cstring) : cstring :=
  if received then
    match working with
    | Some s => Some s
    | None => packed
    end
  else working.

(** The parent frame after the unpack. *)
Definition frame_after (received : bool) (working packed : cstring) : cstring :=
  if received then
    match working, packed with
    | Some s, Some q =>
        if String.eqb s q then (if starts_with_byte q then Some q else None)
        else Some s
    | None, Some q => if starts_with_byte q then Some q else None
    | _, None => working
    end
  else working.

(** The working data after a completed unpack, member by member. *)
Definition unpacked (a : Attributes) (p w : PhysicalEntityData) : PhysicalEntityData :=
  mkPED (string_after (is_received (name_attr a)) (name w) (name p))
        (string_after (is_received (type_attr a)) (type w) (type p))
        (string_after (is_received (status_attr a)) (status w) (status p))
        (frame_after (is_received (parent_frame_attr a)) (parent_frame w) (parent_frame p))
        (if is_received (state_attr a) then state p else state w)
        (accel w) (rot_accel w) (cm w)
        (if is_received (body_frame_attr a) then body_wrt_struct p
         else body_wrt_struct w).

End UnpackSpec.

(* ================================================================== *)
(** * Sample data used by the examples                                 *)
(* ================================================================== *)

Module Sample.
Import PhysicalEntity.
Local Open Scope float_scope.

Definition zero3 : vec3 := Vec3 0 0 0.
Definition unit_quat : QuaternionData := mkQuat 1 zero3.

(** The working data of a lander, and a freshly initialised packing record
    (empty strings, zero state). *)
Definition working : PhysicalEntityData :=
  mkPED (Some "Lander") (Some "Vehicle") (Some "Active") (Some "MoonCentricInertial")
        (mkSTC (Vec3 1 2 3) (Vec3 0.5 0 0) unit_quat (Vec3 0 0 0.125) 100)
        (Vec3 0 0 (-1.625)) zero3 (Vec3 0.25 0 0) unit_quat.

Definition blank : PhysicalEntityData :=
  mkPED (Some EmptyString) (Some EmptyString) (Some EmptyString) (Some EmptyString)
        (mkSTC zero3 zero3 unit_quat zero3 0)
        zero3 zero3 zero3 unit_quat.

(** What another federate sent: a new state, and empty type / status /
    parent frame strings. *)
Definition incoming : PhysicalEntityData :=
  mkPED (Some "Lander-2") (Some EmptyString) (Some EmptyString) (Some EmptyString)
        (mkSTC (Vec3 4 5 6) (Vec3 1 1 1) unit_quat zero3 250)
        zero3 zero3 zero3 (mkQuat 0 (Vec3 1 0 0)).

Definition local_entity : entity := mkEntity (Some working) blank.
Definition remote_entity : entity := mkEntity (Some working) incoming.

Definition received : Attribute := mkAttr false true true.
Definition quiet : Attribute := mkAttr false false false.

Definition all_attrs (x : Attribute) : Attributes :=
  mkAttrs x x x x x x x x x x x x.

(** Only the state arrived this cycle. *)
Definition state_only : Attributes :=
  mkAttrs received quiet quiet quiet quiet quiet quiet quiet quiet quiet quiet quiet.

(** Only the type arrived this cycle. *)
Definition type_only : Attributes :=
  mkAttrs quiet quiet received quiet quiet quiet quiet quiet quiet quiet quiet quiet.

(** Only the parent frame arrived this cycle. *)
Definition frame_only : Attributes :=
  mkAttrs quiet quiet quiet quiet received quiet quiet quiet quiet quiet quiet quiet.

Definition everything : Attributes := all_attrs received.

(** An entity for exercising the lag compensator: a [PhysicalEntity] with
    the dynamical packing data beside it.  Its pack and unpack are those of
    [PhysicalEntity]; its time is the time tag of the packed state. *)
Record probe := mkProbe {
  pe : entity;
  de : DynamicalEntityData.t
}.

#[export] Instance probe_entity : DynamicalEntityBase probe := {
  pack_from_working_data t e :=
    x <- PhysicalEntity.pack_from_working_data t (pe e) ;; ret (mkProbe x (de e));
  unpack_into_working_data a e :=
    x <- PhysicalEntity.unpack_into_working_data a (pe e) ;; ret (mkProbe x (de e));
  get_time e := time (state (pe_packing_data (pe e)));
  de_packing_data := de;
  set_de_packing_data d e := mkProbe (pe e) d
}.

(** The inherited part of the compensator: the compensated state. *)
Definition probe_load (e : probe) (b : SpaceTimeCoordinateData) : SpaceTimeCoordinateData :=
  state (pe_packing_data (pe e)).
Definition probe_unload (b : SpaceTimeCoordinateData) (e : probe) : probe :=
  mkProbe (with_packing (upd_state (fun _ => b) (pe_packing_data (pe e))) (pe e)) (de e).
Definition probe_derivative (b : SpaceTimeCoordinateData) : SpaceTimeCoordinateData := b.

(** A compensation by straight-line motion: position advanced by velocity
    over the interval, time tag moved to its end. *)
Definition drift (begin_t end_t : double)
           (l : DynamicalEntityLagCompBase.lagcomp SpaceTimeCoordinateData)
  : DynamicalEntityLagCompBase.lagcomp SpaceTimeCoordinateData :=
  let dt := end_t - begin_t in
  DynamicalEntityLagCompBase.upd_base SpaceTimeCoordinateData
    (fun b =>
       let p := pos b in let v := vel b in
       mkSTC (Vec3 (v0 p + v0 v * dt) (v1 p + v1 v * dt) (v2 p + v2 v * dt))
             v (quat b) (ang_vel b) end_t) l.

(** An inversion routine in the manner of Trick's: the determinant decides;
    status 0 is success. *)
Definition det33 (m : mat33) : double :=
  mget m 0 0 * (mget m 1 1 * mget m 2 2 - mget m 2 1 * mget m 1 2)
  - mget m 1 0 * (mget m 0 1 * mget m 2 2 - mget m 2 1 * mget m 0 2)
  + mget m 2 0 * (mget m 0 1 * mget m 1 2 - mget m 1 1 * mget m 0 2).

Definition invert_symm (inv m : mat33) : Z * mat33 :=
  let d := det33 m in
  if PrimFloat.eqb d 0 then (1%Z, inv)
  else
    let i00 := (mget m 1 1 * mget m 2 2 - mget m 1 2 * mget m 1 2) / d in
    let i01 := (mget m 0 2 * mget m 1 2 - mget m 0 1 * mget m 2 2) / d in
    let i02 := (mget m 0 1 * mget m 1 2 - mget m 0 2 * mget m 1 1) / d in
    let i11 := (mget m 0 0 * mget m 2 2 - mget m 0 2 * mget m 0 2) / d in
    let i12 := (mget m 0 1 * mget m 0 2 - mget m 0 0 * mget m 1 2) / d in
    let i22 := (mget m 0 0 * mget m 1 1 - mget m 0 1 * mget m 0 1) / d in
    (0%Z, Mat33 (Vec3 i00 i01 i02) (Vec3 i01 i11 i12) (Vec3 i02 i12 i22)).

Definition identity33 : mat33 := Mat33 (Vec3 1 0 0) (Vec3 0 1 0) (Vec3 0 0 1).
Definition singular33 : mat33 := Mat33 (Vec3 1 2 3) (Vec3 2 4 6) (Vec3 3 6 9).
Definition zero33 : mat33 := Mat33 zero3 zero3 zero3.

Definition dynamics (i : mat33) : DynamicalEntityData.t :=
  DynamicalEntityData.mk zero3 zero3 1 0 i zero33.

(** A compensator as its constructor leaves it, holding a given inertia and
    a given, stale, inverse. *)
Definition compensator (i inv : mat33)
  : DynamicalEntityLagCompBase.lagcomp SpaceTimeCoordinateData :=
  DynamicalEntityLagCompBase.mkLagComp SpaceTimeCoordinateData
    (state blank) 0 zero3 zero3 1 0 i zero33 inv.

Definition world0 (a : Attributes) (pd : PhysicalEntityData) (i inv : mat33)
  : DynamicalEntityLagCompBase.world probe SpaceTimeCoordinateData :=
  DynamicalEntityLagCompBase.mkWorld probe SpaceTimeCoordinateData
    a (mkProbe (mkEntity (Some working) pd) (dynamics i)) (compensator i inv) [].

(** The state and the inertia arrived this cycle. *)
Definition state_and_inertia : Attributes :=
  mkAttrs received quiet quiet quiet quiet quiet quiet quiet quiet quiet received quiet.

Definition env0 : exec_env := mkEnv 260 0.5.

Definition send0 :=
  DynamicalEntityLagCompBase.send_lag_compensation probe SpaceTimeCoordinateData
    probe_load probe_unload probe_derivative drift.

Definition receive0 :=
  DynamicalEntityLagCompBase.receive_lag_compensation probe SpaceTimeCoordinateData
    probe_load probe_unload probe_derivative drift invert_symm 0%Z.

Definition state_part0 :=
  DynamicalEntityLagCompBase.receive_state_part probe SpaceTimeCoordinateData
    probe_load probe_derivative drift.

Definition compensated0 :=
  DynamicalEntityLagCompBase.receive_compensated probe SpaceTimeCoordinateData
    probe_load probe_derivative drift invert_symm 0%Z.

(** A receive in which the state and a singular inertia arrived, and a
    send of the lander. *)
Definition receiving : DynamicalEntityLagCompBase.world probe SpaceTimeCoordinateData :=
  world0 state_and_inertia incoming singular33 identity33.

Definition sending : DynamicalEntityLagCompBase.world probe SpaceTimeCoordinateData :=
  world0 (all_attrs quiet) blank identity33 identity33.

End Sample.

(** Further sample data: a lander whose parent frame is the empty string,
    and one whose type and status are not set. *)
Module Sample2.
Import PhysicalEntity.
Local Open Scope float_scope.

Definition unframed : PhysicalEntityData :=
  set_parent_frame (Some EmptyString) Sample.working.

Definition unframed_entity : entity := mkEntity (Some unframed) Sample.blank.

Definition untyped : PhysicalEntityData :=
  set_status None (set_type None Sample.working).

Definition untyped_remote : entity := mkEntity (Some untyped) Sample.incoming.

(** Only the type and the status arrived this cycle. *)
Definition type_and_status : Attributes :=
  mkAttrs Sample.quiet Sample.quiet Sample.received Sample.received
          Sample.quiet Sample.quiet Sample.quiet Sample.quiet Sample.quiet
          Sample.quiet Sample.quiet Sample.quiet.

(** An entity that was never given working data. *)
Definition unbound_entity : entity := mkEntity None Sample.incoming.

(** Only the inertia arrived this cycle. *)
Definition inertia_only : Attributes :=
  mkAttrs Sample.quiet Sample.quiet Sample.quiet Sample.quiet Sample.quiet
          Sample.quiet Sample.quiet Sample.quiet Sample.quiet Sample.quiet
          Sample.received Sample.quiet.

(** A receive in which a singular inertia arrived without the state, for a
    compensator that still holds the identity as inertia. *)
Definition inertia_alone
  : DynamicalEntityLagCompBase.world Sample.probe SpaceTimeCoordinateData :=
  DynamicalEntityLagCompBase.mkWorld Sample.probe SpaceTimeCoordinateData
    inertia_only
    (Sample.mkProbe (mkEntity (Some Sample.working) Sample.incoming)
                    (Sample.dynamics Sample.singular33))
    (Sample.compensator Sample.identity33 Sample.zero33) [].

(** A receive in which the state and a regular inertia arrived. *)
Definition regular
  : DynamicalEntityLagCompBase.world Sample.probe SpaceTimeCoordinateData :=
  Sample.world0 Sample.state_and_inertia Sample.incoming Sample.identity33
                Sample.zero33.

Definition unload0 :=
  DynamicalEntityLagCompBase.unload_lag_comp_data Sample.probe
    (EntityOps := Sample.probe_entity) SpaceTimeCoordinateData Sample.probe_unload.

Definition load0 :=
  DynamicalEntityLagCompBase.load_lag_comp_data Sample.probe
    (EntityOps := Sample.probe_entity) SpaceTimeCoordinateData Sample.probe_load.

End Sample2.

(* ================================================================== *)
(** * Properties: basic facts                                          *)
(* ================================================================== *)

Lemma bind_Ok_inv {A B} (c : outcome A) (k : A -> outcome B) (b : B) :
  (x <- c ;; k x) = Ok b -> exists a, c = Ok a /\ k a = Ok b.
Proof.
  destruct c as [a| |]; simpl; intros H; try discriminate.
  exists a; split; [reflexivity | exact H].
Qed.

Lemma strcmp_val_eq_iff (a b : string) : strcmp_val a b = 0%Z <-> a = b.
Proof.
  unfold strcmp_val. split.
  - destruct (String.compare a b) eqn:E; try discriminate.
    intros _. now apply String.compare_eq_iff.
  - intros ->. pose proof (String.compare_antisym b b) as E.
    destruct (String.compare b b); simpl in E; congruence.
Qed.

Lemma strcmp_val_refl (a : string) : strcmp_val a a = 0%Z.
Proof. now apply strcmp_val_eq_iff. Qed.

Lemma vec3_loop_copy (src dst : vec3) :
  for_upto 3 (fun iinc v => vset iinc (vget src iinc) v) dst = src.
Proof. destruct src, dst; reflexivity. Qed.

(* ================================================================== *)
(** * Properties of PhysicalEntity::pack_from_working_data             *)
(* ================================================================== *)

(** One step of the outcome monad, without unfolding the callee. *)
Ltac run := cbv beta iota delta [bind ret deref].

Section PhysicalEntityProps.

Import PhysicalEntity PhysicalEntitySpec.

(** What the numeric part of the pack leaves behind: the working numbers,
    the scenario time as time tag, and the strings of the packing record
    untouched. *)
Lemma pack_numeric_spec (t : double) (w p : PhysicalEntityData) :
  pack_numeric t w p =
  mkPED (name p) (type p) (status p) (parent_frame p)
        (mkSTC (pos (state w)) (vel (state w)) (quat (state w))
               (ang_vel (state w)) t)
        (accel w) (rot_accel w) (cm w) (body_wrt_struct w).
Proof.
  destruct w as [wn wt ws wf [[? ? ?] [? ? ?] [? [? ? ?]] [? ? ?] ?]
                   [? ? ?] [? ? ?] [? ? ?] [? [? ? ?]]].
  destruct p as [pn pt ps pf [[? ? ?] [? ? ?] [? [? ? ?]] [? ? ?] ?]
                   [? ? ?] [? ? ?] [? ? ?] [? [? ? ?]]].
  reflexivity.
Qed.

(** The string steps of the pack: each one completes and leaves the packed
    string equal in value to the working one. *)
Lemma pack_name_ok msg w p s :
  name w = Some s -> name p <> None ->
  pack_required name set_name msg w p = Ok (set_name (Some s) p).
Proof.
  intros Hw Hp. destruct p as [[q|] ? ? ? ? ? ? ? ?]; simpl in Hp; [|congruence].
  unfold pack_required. rewrite Hw. cbn.
  destruct (Z.eqb_spec (strcmp_val s q) 0) as [E|E]; cbn; [|reflexivity].
  apply strcmp_val_eq_iff in E. now subst.
Qed.

Lemma pack_parent_frame_ok msg w p s :
  parent_frame w = Some s -> parent_frame p <> None ->
  pack_required parent_frame set_parent_frame msg w p
  = Ok (set_parent_frame (Some s) p).
Proof.
  intros Hw Hp. destruct p as [? ? ? [q|] ? ? ? ? ?]; simpl in Hp; [|congruence].
  unfold pack_required. rewrite Hw. cbn.
  destruct (Z.eqb_spec (strcmp_val s q) 0) as [E|E]; cbn; [|reflexivity].
  apply strcmp_val_eq_iff in E. now subst.
Qed.

Lemma pack_type_ok w p :
  pack_optional type set_type w p = Ok (set_type (type w) p).
Proof.
  destruct p as [? [q|] ? ? ? ? ? ? ?]; unfold pack_optional; cbn;
    destruct (type w) as [s|]; cbn; try reflexivity.
  destruct (Z.eqb_spec (strcmp_val s q) 0) as [E|E]; cbn; [|reflexivity].
  apply strcmp_val_eq_iff in E. now subst.
Qed.

Lemma pack_status_ok w p :
  pack_optional status set_status w p = Ok (set_status (status w) p).
Proof.
  destruct p as [? ? [q|] ? ? ? ? ? ?]; unfold pack_optional; cbn;
    destruct (status w) as [s|]; cbn; try reflexivity.
  destruct (Z.eqb_spec (strcmp_val s q) 0) as [E|E]; cbn; [|reflexivity].
  apply strcmp_val_eq_iff in E. now subst.
Qed.

Lemma pack_from_working_data_ok (t : double) (e : entity) (w : PhysicalEntityData) :
  physical_data e = Some w ->
  name w <> None -> parent_frame w <> None ->
  packing_ready (pe_packing_data e) ->
  pack_from_working_data t e = Ok (with_packing (packed_image t w) e).
Proof.
  intros Hd Hn Hf [Rn Rf].
  destruct (name w) as [sn|] eqn:En; [|congruence].
  destruct (parent_frame w) as [sf|] eqn:Ef; [|congruence].
  unfold pack_from_working_data. rewrite Hd. run.
  rewrite (pack_name_ok _ _ _ _ En Rn). run.
  rewrite pack_type_ok. run. rewrite pack_status_ok. run.
  rewrite (pack_parent_frame_ok _ _ _ sf Ef) by (destruct (pe_packing_data e); exact Rf).
  run. rewrite pack_numeric_spec. cbn.
  unfold packed_image, upd_state, upd_time. rewrite En, Ef.
  destruct (state w); reflexivity.
Qed.

(** A NULL working name, or a NULL working parent frame, ends the run. *)
Lemma pack_null_name_terminates (t : double) (e : entity) (w : PhysicalEntityData) :
  physical_data e = Some w -> name w = None ->
  pack_from_working_data t e = Terminated msg_null_name.
Proof.
  intros Hd Hn. unfold pack_from_working_data, pack_required.
  rewrite Hd. cbn. now rewrite Hn.
Qed.

Lemma pack_null_frame_terminates (t : double) (e : entity) (w : PhysicalEntityData) :
  physical_data e = Some w -> name w <> None -> name (pe_packing_data e) <> None ->
  parent_frame w = None ->
  pack_from_working_data t e = Terminated msg_null_frame.
Proof.
  intros Hd Hn Rn Hf.
  destruct (name w) as [sn|] eqn:En; [|congruence].
  unfold pack_from_working_data. rewrite Hd. run.
  rewrite (pack_name_ok _ _ _ _ En Rn). run.
  rewrite pack_type_ok. run. rewrite pack_status_ok. run.
  unfold pack_required. cbn. now rewrite Hf.
Qed.

(** The pack keeps the packing record initialised. *)
Lemma pack_preserves_packing_ready (t : double) (e e' : entity) :
  packing_ready (pe_packing_data e) ->
  pack_from_working_data t e = Ok e' ->
  packing_ready (pe_packing_data e').
Proof.
  intros R H. destruct (physical_data e) as [w|] eqn:Hd;
    [|unfold pack_from_working_data in H; rewrite Hd in H; discriminate].
  destruct (name w) as [sn|] eqn:En;
    [|rewrite (pack_null_name_terminates t e w Hd En) in H; discriminate].
  destruct (parent_frame w) as [sf|] eqn:Ef.
  - rewrite (pack_from_working_data_ok t e w Hd) in H; try congruence; trivial.
    injection H as <-. cbn. unfold packing_ready. cbn. rewrite En, Ef.
    split; discriminate.
  - destruct R as [Rn Rf].
    rewrite (pack_null_frame_terminates t e w Hd) in H; try congruence; trivial.
Qed.

(* ================================================================== *)
(** * Properties of PhysicalEntity::unpack_into_working_data           *)
(* ================================================================== *)

Lemma with_working_self (e : entity) (w : PhysicalEntityData) :
  physical_data e = Some w -> with_working w e = e.
Proof. destruct e; cbn; now intros ->. Qed.

Lemma with_working_twice (e : entity) (w1 w2 : PhysicalEntityData) :
  with_working w2 (with_working w1 e) = with_working w2 e.
Proof. reflexivity. Qed.

(** ** What each block writes when its attribute was received *)

Lemma unpack_state_received (a : Attributes) (e : entity) (w : PhysicalEntityData) :
  is_received (state_attr a) = true -> physical_data e = Some w ->
  unpack_state a e
  = Ok (with_working (upd_state (fun _ => state (pe_packing_data e)) w) e).
Proof.
  intros R Hd. unfold unpack_state. rewrite R, Hd. cbn.
  destruct e as [d p]; cbn.
  destruct p as [? ? ? ? [[? ? ?] [? ? ?] [? [? ? ?]] [? ? ?] ?] ? ? ? ?].
  destruct w as [? ? ? ? [[? ? ?] [? ? ?] [? [? ? ?]] [? ? ?] ?] ? ? ? ?].
  reflexivity.
Qed.

Lemma unpack_body_frame_received (a : Attributes) (e : entity) (w : PhysicalEntityData) :
  is_received (body_frame_attr a) = true -> physical_data e = Some w ->
  unpack_body_frame a e
  = Ok (with_working
          (upd_body_wrt_struct (fun _ => body_wrt_struct (pe_packing_data e)) w) e).
Proof.
  intros R Hd. unfold unpack_body_frame. rewrite R, Hd. cbn.
  destruct e as [d p]; cbn.
  destruct p as [? ? ? ? ? ? ? ? [? [? ? ?]]].
  destruct w as [? ? ? ? ? ? ? ? [? [? ? ?]]].
  reflexivity.
Qed.

(** The string block, case by case.  [get] and [set] are any member and
    its update. *)
Lemma unpack_string_not_received attr get set a e :
  is_received (attr a) = false -> unpack_string attr get set a e = Ok e.
Proof. intros R. unfold unpack_string. now rewrite R. Qed.

Lemma unpack_string_null_working attr get set a e w s :
  is_received (attr a) = true -> physical_data e = Some w ->
  get w = None -> get (pe_packing_data e) = Some s ->
  unpack_string attr get set a e = Ok (with_working (set (Some s) w) e).
Proof.
  intros R Hd Hw Hp. unfold unpack_string. rewrite R, Hd. cbn.
  now rewrite Hw, Hp.
Qed.

Lemma unpack_string_equal attr get set a e w s :
  is_received (attr a) = true -> physical_data e = Some w ->
  get w = Some s -> get (pe_packing_data e) = Some s ->
  unpack_string attr get set a e = Ok (with_working (set (Some s) w) e).
Proof.
  intros R Hd Hw Hp. unfold unpack_string. rewrite R, Hd. cbn.
  rewrite Hw, Hp. cbn. now rewrite strcmp_val_refl.
Qed.

(** The working string differs from the received one: [strcmp] is
    non-zero, [!strcmp] is false, and the block does nothing. *)
Lemma unpack_string_different attr get set a e w s q :
  is_received (attr a) = true -> physical_data e = Some w ->
  get w = Some s -> get (pe_packing_data e) = Some q -> s <> q ->
  unpack_string attr get set a e = Ok e.
Proof.
  intros R Hd Hw Hp Hne. unfold unpack_string. rewrite R, Hd. cbn.
  rewrite Hw, Hp. cbn.
  destruct (Z.eqb_spec (strcmp_val s q) 0) as [E|E]; [|reflexivity].
  apply strcmp_val_eq_iff in E. contradiction.
Qed.

(** ** The footprint of each block *)

Lemma keeps_unreceived_refl a w : keeps_unreceived a w w.
Proof. intros f _. reflexivity. Qed.

Lemma keeps_unreceived_trans a w1 w2 w3 :
  keeps_unreceived a w1 w2 -> keeps_unreceived a w2 w3 -> keeps_unreceived a w1 w3.
Proof. intros H12 H23 f Hf. rewrite (H23 f Hf). exact (H12 f Hf). Qed.

Lemma frame_step_compose a (s1 s2 : entity -> outcome entity) :
  frame_step a s1 -> frame_step a s2 ->
  frame_step a (fun e => x <- s1 e ;; s2 x).
Proof.
  intros F1 F2 e e' w Hd H.
  apply bind_Ok_inv in H as (e1 & H1 & H2).
  destruct (F1 _ _ _ Hd H1) as (P1 & w1 & D1 & K1).
  destruct (F2 _ _ _ D1 H2) as (P2 & w2 & D2 & K2).
  split; [congruence|]. exists w2. split; [exact D2|].
  eapply keeps_unreceived_trans; eassumption.
Qed.

(** Closes a [writes_only] goal once the block has been reduced to its
    result. *)
Ltac writes_done :=
  unfold ret in *;
  match goal with
  | H : Ok _ = Ok _ |- _ => injection H as <-
  end;
  (split; [reflexivity|]);
  eexists; (split; [first [reflexivity | eassumption]|]);
  let f := fresh "f" in let Hf := fresh "Hf" in
  intros f Hf; destruct f; try reflexivity; cbn in Hf; discriminate.

Lemma writes_unpack_state a : writes_only state_members (unpack_state a).
Proof.
  intros e e' w Hd H. unfold unpack_state in H.
  destruct (is_received (state_attr a)).
  - rewrite Hd in H. cbn in H. writes_done.
  - cbn in H. writes_done.
Qed.

Lemma writes_unpack_body_frame a : writes_only body_frame_member (unpack_body_frame a).
Proof.
  intros e e' w Hd H. unfold unpack_body_frame in H.
  destruct (is_received (body_frame_attr a)).
  - rewrite Hd in H. cbn in H. writes_done.
  - cbn in H. writes_done.
Qed.

Ltac writes_string get_w :=
  let e := fresh "e" in let e' := fresh "e'" in let w := fresh "w" in
  let Hd := fresh "Hd" in let H := fresh "H" in
  intros e e' w Hd H; unfold unpack_string in H;
  match type of H with
  | context [is_received ?x] => destruct (is_received x)
  end;
  [ rewrite Hd in H; cbn in H;
    destruct (get_w w) as [s|];
    [ destruct (get_w (pe_packing_data e)) as [q|]; cbn in H; [|discriminate];
      destruct (strcmp_val s q =? 0)%Z; cbn in H; writes_done
    | destruct (get_w (pe_packing_data e)) as [q|]; cbn in H; [|discriminate];
      writes_done ]
  | cbn in H; writes_done ].

Lemma writes_unpack_name a :
  writes_only name_member (unpack_string name_attr name set_name a).
Proof. writes_string name. Qed.

Lemma writes_unpack_type a :
  writes_only type_member (unpack_string type_attr type set_type a).
Proof. writes_string type. Qed.

Lemma writes_unpack_status a :
  writes_only status_member (unpack_string status_attr status set_status a).
Proof. writes_string status. Qed.

Lemma writes_unpack_parent_frame a :
  writes_only parent_frame_member (unpack_parent_frame a).
Proof.
  intros e e' w Hd H. unfold unpack_parent_frame in H.
  destruct (is_received (parent_frame_attr a)).
  - rewrite Hd in H. cbn in H.
    destruct (parent_frame (pe_packing_data e)) as [q|];
      [|destruct (parent_frame w); cbn in H; discriminate].
    destruct (parent_frame w) as [s|]; cbn in H.
    + destruct (strcmp_val s q =? 0)%Z; cbn in H.
      * destruct q as [|c q]; cbn in H;
          [|destruct (Ascii.eqb c NUL); cbn in H]; writes_done.
      * writes_done.
    + destruct q as [|c q]; cbn in H;
        [|destruct (Ascii.eqb c NUL); cbn in H]; writes_done.
  - cbn in H. writes_done.
Qed.

Lemma writes_only_weaken (own own' : field -> bool) step :
  (forall f, own f = true -> own' f = true) ->
  writes_only own step -> writes_only own' step.
Proof.
  intros Hsub W e e' w Hd H. destruct (W e e' w Hd H) as (P & w' & D & K).
  split; [exact P|]. exists w'. split; [exact D|].
  intros f Hf. apply K. destruct (own f) eqn:E; [|reflexivity].
  rewrite (Hsub f E) in Hf. discriminate.
Qed.

Lemma writes_only_compose own (s1 s2 : entity -> outcome entity) :
  writes_only own s1 -> writes_only own s2 ->
  writes_only own (fun e => x <- s1 e ;; s2 x).
Proof.
  intros F1 F2 e e' w Hd H.
  apply bind_Ok_inv in H as (e1 & H1 & H2).
  destruct (F1 _ _ _ Hd H1) as (P1 & w1 & D1 & K1).
  destruct (F2 _ _ _ D1 H2) as (P2 & w2 & D2 & K2).
  split; [congruence|]. exists w2. split; [exact D2|].
  intros f Hf. rewrite (K2 f Hf). exact (K1 f Hf).
Qed.

(** The five blocks after the state block never write a state member. *)
Lemma writes_after_state a :
  writes_only (fun f => negb (state_members f))
    (fun e =>
       e <- unpack_string name_attr name set_name a e ;;
       e <- unpack_string type_attr type set_type a e ;;
       e <- unpack_string status_attr status set_status a e ;;
       e <- unpack_parent_frame a e ;;
       unpack_body_frame a e).
Proof.
  repeat (apply writes_only_compose with (s1 := fun e => _));
    [ eapply writes_only_weaken; [|apply writes_unpack_name]
    | eapply writes_only_weaken; [|apply writes_unpack_type]
    | eapply writes_only_weaken; [|apply writes_unpack_status]
    | eapply writes_only_weaken; [|apply writes_unpack_parent_frame]
    | eapply writes_only_weaken; [|intros e e' w; apply writes_unpack_body_frame] ];
    intros f; destruct f; cbn; congruence.
Qed.

(** ** Frame: a block only touches the members its attribute gates *)

Lemma frame_of_writes a own attr step :
  writes_only own step ->
  (is_received (attr a) = false -> forall e, step e = Ok e) ->
  (forall f, own f = true -> field_received a f = is_received (attr a)) ->
  frame_step a step.
Proof.
  intros W Hid Hown e e' w Hd H.
  destruct (is_received (attr a)) eqn:R.
  - destruct (W e e' w Hd H) as (P & w' & D & K).
    split; [exact P|]. exists w'. split; [exact D|].
    intros f Hf. apply K. destruct (own f) eqn:E; [|reflexivity].
    rewrite (Hown f E) in Hf. discriminate.
  - rewrite (Hid eq_refl e) in H. injection H as <-.
    split; [reflexivity|]. exists w. split; [exact Hd|].
    apply keeps_unreceived_refl.
Qed.

Ltac gated := let f := fresh "f" in intros f; destruct f; cbn; congruence.

Lemma frame_unpack_state a : frame_step a (unpack_state a).
Proof.
  apply (frame_of_writes a state_members state_attr);
    [apply writes_unpack_state | | gated].
  intros R e. unfold unpack_state. now rewrite R.
Qed.

Lemma frame_unpack_name a : frame_step a (unpack_string name_attr name set_name a).
Proof.
  apply (frame_of_writes a name_member name_attr);
    [apply writes_unpack_name | | gated].
  intros R e. now apply unpack_string_not_received.
Qed.

Lemma frame_unpack_type a : frame_step a (unpack_string type_attr type set_type a).
Proof.
  apply (frame_of_writes a type_member type_attr);
    [apply writes_unpack_type | | gated].
  intros R e. now apply unpack_string_not_received.
Qed.

Lemma frame_unpack_status a :
  frame_step a (unpack_string status_attr status set_status a).
Proof.
  apply (frame_of_writes a status_member status_attr);
    [apply writes_unpack_status | | gated].
  intros R e. now apply unpack_string_not_received.
Qed.

Lemma frame_unpack_parent_frame a : frame_step a (unpack_parent_frame a).
Proof.
  apply (frame_of_writes a parent_frame_member parent_frame_attr);
    [apply writes_unpack_parent_frame | | gated].
  intros R e. unfold unpack_parent_frame. now rewrite R.
Qed.

Lemma frame_unpack_body_frame a : frame_step a (unpack_body_frame a).
Proof.
  apply (frame_of_writes a body_frame_member body_frame_attr);
    [apply writes_unpack_body_frame | | gated].
  intros R e. unfold unpack_body_frame. now rewrite R.
Qed.

Lemma frame_unpack_into_working_data a : frame_step a (unpack_into_working_data a).
Proof.
  unfold unpack_into_working_data.
  repeat (apply frame_step_compose;
          [first [apply frame_unpack_state | apply frame_unpack_name
                 | apply frame_unpack_type | apply frame_unpack_status
                 | apply frame_unpack_parent_frame]|]).
  intros e e' w. apply frame_unpack_body_frame.
Qed.

(** ** Completion *)

Lemma unpack_state_total a e w :
  physical_data e = Some w -> exists w', unpack_state a e = Ok (with_working w' e).
Proof.
  intros Hd. destruct (is_received (state_attr a)) eqn:R.
  - rewrite (unpack_state_received a e w R Hd). eauto.
  - unfold unpack_state. rewrite R. exists w. now rewrite with_working_self.
Qed.

Lemma unpack_body_frame_total a e w :
  physical_data e = Some w -> exists w', unpack_body_frame a e = Ok (with_working w' e).
Proof.
  intros Hd. destruct (is_received (body_frame_attr a)) eqn:R.
  - rewrite (unpack_body_frame_received a e w R Hd). eauto.
  - unfold unpack_body_frame. rewrite R. exists w. now rewrite with_working_self.
Qed.

Lemma unpack_string_total attr get set a e w :
  physical_data e = Some w ->
  (is_received (attr a) = true -> get (pe_packing_data e) <> None) ->
  exists w', unpack_string attr get set a e = Ok (with_working w' e).
Proof.
  intros Hd Hp. unfold unpack_string. destruct (is_received (attr a)).
  - rewrite Hd. cbn.
    destruct (get (pe_packing_data e)) as [q|]; [|now destruct Hp].
    destruct (get w) as [s|]; cbn; [|eauto].
    destruct (strcmp_val s q =? 0)%Z; cbn; [eauto|].
    exists w. now rewrite with_working_self.
  - exists w. now rewrite with_working_self.
Qed.

Lemma unpack_parent_frame_total a e w :
  physical_data e = Some w ->
  (is_received (parent_frame_attr a) = true -> parent_frame (pe_packing_data e) <> None) ->
  exists w', unpack_parent_frame a e = Ok (with_working w' e).
Proof.
  intros Hd Hp. unfold unpack_parent_frame.
  assert (Hself : Ok e = Ok (with_working w e)) by now rewrite with_working_self.
  destruct (is_received (parent_frame_attr a)); [|eauto].
  rewrite Hd. cbn.
  destruct (parent_frame (pe_packing_data e)) as [q|]; [|now destruct Hp].
  destruct (parent_frame w) as [s|]; cbn.
  - destruct (strcmp_val s q =? 0)%Z; cbn; [|eauto].
    destruct q as [|c q]; cbn; [eauto|].
    destruct (Ascii.eqb c NUL); cbn; eauto.
  - destruct q as [|c q]; cbn; [eauto|].
    destruct (Ascii.eqb c NUL); cbn; eauto.
Qed.

Lemma unpack_into_working_data_total a e w :
  physical_data e = Some w ->
  received_strings_present a (pe_packing_data e) ->
  exists w', unpack_into_working_data a e = Ok (with_working w' e).
Proof.
  intros Hd (Vn & Vt & Vs & Vf). unfold unpack_into_working_data.
  destruct (unpack_state_total a e w Hd) as (w1 & ->). run.
  destruct (unpack_string_total name_attr name set_name a (with_working w1 e) w1
              eq_refl Vn) as (w2 & ->). run. rewrite with_working_twice.
  destruct (unpack_string_total type_attr type set_type a (with_working w2 e) w2
              eq_refl Vt) as (w3 & ->). run. rewrite with_working_twice.
  destruct (unpack_string_total status_attr status set_status a (with_working w3 e) w3
              eq_refl Vs) as (w4 & ->). run. rewrite with_working_twice.
  destruct (unpack_parent_frame_total a (with_working w4 e) w4 eq_refl Vf) as (w5 & ->).
  run. rewrite with_working_twice.
  destruct (unpack_body_frame_total a (with_working w5 e) w5 eq_refl) as (w6 & ->).
  rewrite with_working_twice. now exists w6.
Qed.

(* ================================================================== *)
(** * C7, C1: the pack copies, the unpack is gated                     *)
(* ================================================================== *)

(** Whatever the strings, a pack that completes has run its numeric part
    on the working data. *)
Lemma pack_from_working_data_inv (t : double) (e e' : entity) (w : PhysicalEntityData) :
  physical_data e = Some w ->
  pack_from_working_data t e = Ok e' ->
  exists p, e' = with_packing (pack_numeric t w p) e.
Proof.
  intros Hd H. unfold pack_from_working_data in H. rewrite Hd in H.
  apply bind_Ok_inv in H as (w0 & Hw & H). injection Hw as <-.
  apply bind_Ok_inv in H as (p1 & _ & H).
  apply bind_Ok_inv in H as (p2 & _ & H).
  apply bind_Ok_inv in H as (p3 & _ & H).
  apply bind_Ok_inv in H as (p4 & _ & H).
  injection H as <-. now exists p4.
Qed.

(** C7.  For a working state with a non-NULL name and a non-NULL parent
    frame, a completed [pack_from_working_data] leaves every numeric member
    of the working data -- position, velocity, attitude quaternion, angular
    velocity, the two accelerations, the centre of mass and the
    body-to-structural quaternion -- unchanged in value in
    [pe_packing_data], with the scenario time as time tag and the working
    data as it was.  No attribute record is consulted: the pack does not
    take the ownership store as an input.  The pack completes whenever the
    packing record is initialised, that is whenever its own name and parent
    frame are strings. *)
Theorem pack_copies_every_numeric_member :
  forall (t : double) (e : entity) (w : PhysicalEntityData),
    physical_data e = Some w ->
    name w <> None -> parent_frame w <> None ->
    (packing_ready (pe_packing_data e) -> completes (pack_from_working_data t e)) /\
    (forall e',
        pack_from_working_data t e = Ok e' ->
        physical_data e' = Some w /\
        time (state (pe_packing_data e')) = t /\
        forall f, is_numeric f = true -> f <> F_time ->
                  field_value f (pe_packing_data e') = field_value f w).
Proof.
  intros t e w Hd Hn Hf. split.
  - intros R. exists (with_packing (packed_image t w) e).
    now apply pack_from_working_data_ok.
  - intros e' H.
    destruct (pack_from_working_data_inv t e e' w Hd H) as (p & ->).
    rewrite pack_numeric_spec. split; [exact Hd|]. split; [reflexivity|].
    intros f Hnum Htime. destruct f; cbn in *; congruence.
Qed.

Lemma pack_copies_every_numeric_member_witness :
  physical_data Sample.local_entity = Some Sample.working /\
  packing_ready (pe_packing_data Sample.local_entity) /\
  completes (pack_from_working_data 200%float Sample.local_entity) /\
  (forall e',
      pack_from_working_data 200%float Sample.local_entity = Ok e' ->
      physical_data e' = Some Sample.working /\
      time (state (pe_packing_data e')) = 200%float /\
      forall f, is_numeric f = true -> f <> F_time ->
                field_value f (pe_packing_data e') = field_value f Sample.working).
Proof.
  assert (R : packing_ready (pe_packing_data Sample.local_entity))
    by (split; discriminate).
  assert (Hn : name Sample.working <> None) by discriminate.
  assert (Hf : parent_frame Sample.working <> None) by discriminate.
  split; [reflexivity|]. split; [exact R|].
  destruct (pack_copies_every_numeric_member
              200%float Sample.local_entity Sample.working eq_refl Hn Hf)
    as [C K].
  split; [exact (C R) | exact K].
Defined.

(** C1.  Whenever the attribute that gates a member of the working data was
    not received this cycle, [unpack_into_working_data] leaves that member
    with the value it had before the call (the accelerations and the centre
    of mass are never written).  The unpack completes whenever the strings
    of the received string attributes are present in the packing record. *)
Theorem unpack_keeps_unreceived_members :
  forall (a : Attributes) (e : entity) (w : PhysicalEntityData),
    physical_data e = Some w ->
    (received_strings_present a (pe_packing_data e) ->
     completes (unpack_into_working_data a e)) /\
    (forall e',
        unpack_into_working_data a e = Ok e' ->
        exists w',
          physical_data e' = Some w' /\
          forall f, field_received a f = false ->
                    field_value f w' = field_value f w).
Proof.
  intros a e w Hd. split.
  - intros V. destruct (unpack_into_working_data_total a e w Hd V) as (w' & H).
    now exists (with_working w' e).
  - intros e' H.
    destruct (frame_unpack_into_working_data a e e' w Hd H) as (_ & w' & D & K).
    exists w'. split; [exact D | exact K].
Qed.

Lemma unpack_keeps_unreceived_members_witness :
  physical_data Sample.remote_entity = Some Sample.working /\
  (received_strings_present Sample.state_only (pe_packing_data Sample.remote_entity) ->
   completes (unpack_into_working_data Sample.state_only Sample.remote_entity)) /\
  (forall e',
      unpack_into_working_data Sample.state_only Sample.remote_entity = Ok e' ->
      exists w',
        physical_data e' = Some w' /\
        forall f, field_received Sample.state_only f = false ->
                  field_value f w' = field_value f Sample.working).
Proof.
  split; [reflexivity|].
  apply (unpack_keeps_unreceived_members Sample.state_only Sample.remote_entity
           Sample.working).
  reflexivity.
Defined.

(* ================================================================== *)
(** * C2: what the unpack writes, and the pack / unpack round trip     *)
(* ================================================================== *)

Lemma unpack_steps a e e' :
  unpack_into_working_data a e = Ok e' ->
  exists e1 e2 e3 e4 e5,
    unpack_state a e = Ok e1 /\
    unpack_string name_attr name set_name a e1 = Ok e2 /\
    unpack_string type_attr type set_type a e2 = Ok e3 /\
    unpack_string status_attr status set_status a e3 = Ok e4 /\
    unpack_parent_frame a e4 = Ok e5 /\
    unpack_body_frame a e5 = Ok e'.
Proof.
  unfold unpack_into_working_data. intros H.
  apply bind_Ok_inv in H as (e1 & H1 & H).
  apply bind_Ok_inv in H as (e2 & H2 & H).
  apply bind_Ok_inv in H as (e3 & H3 & H).
  apply bind_Ok_inv in H as (e4 & H4 & H).
  apply bind_Ok_inv in H as (e5 & H5 & H).
  exists e1, e2, e3, e4, e5. auto 10.
Qed.

Lemma state_of_members (w w' : PhysicalEntityData) :
  (forall f, negb (state_members f) = false -> field_value f w' = field_value f w) ->
  state w' = state w.
Proof.
  intros K.
  pose proof (K F_pos eq_refl) as Kp. pose proof (K F_vel eq_refl) as Kv.
  pose proof (K F_quat eq_refl) as Kq. pose proof (K F_ang_vel eq_refl) as Ka.
  pose proof (K F_time eq_refl) as Kt. cbn in *.
  destruct (state w'), (state w); cbn in *. congruence.
Qed.

(** The state block writes the whole packed state, and nothing after it
    touches the state again. *)
Lemma unpack_writes_state a e e' w :
  physical_data e = Some w -> is_received (state_attr a) = true ->
  unpack_into_working_data a e = Ok e' ->
  exists w', physical_data e' = Some w' /\ state w' = state (pe_packing_data e).
Proof.
  intros Hd R H. unfold unpack_into_working_data in H.
  apply bind_Ok_inv in H as (e1 & H1 & H).
  rewrite (unpack_state_received a e w R Hd) in H1. injection H1 as <-.
  destruct (writes_after_state a (with_working _ e) e' _ eq_refl H) as (_ & w' & D & K).
  exists w'. split; [exact D|]. now rewrite (state_of_members _ _ K).
Qed.

(** The body-frame block is the last one: what it writes stays. *)
Lemma unpack_writes_body_frame a e e' w :
  physical_data e = Some w -> is_received (body_frame_attr a) = true ->
  unpack_into_working_data a e = Ok e' ->
  exists w', physical_data e' = Some w' /\
             body_wrt_struct w' = body_wrt_struct (pe_packing_data e).
Proof.
  intros Hd R H.
  destruct (unpack_steps a e e' H) as (e1 & e2 & e3 & e4 & e5 & H1 & H2 & H3 & H4 & H5 & H6).
  destruct (writes_unpack_state a _ _ _ Hd H1) as (P1 & w1 & D1 & _).
  destruct (writes_unpack_name a _ _ _ D1 H2) as (P2 & w2 & D2 & _).
  destruct (writes_unpack_type a _ _ _ D2 H3) as (P3 & w3 & D3 & _).
  destruct (writes_unpack_status a _ _ _ D3 H4) as (P4 & w4 & D4 & _).
  destruct (writes_unpack_parent_frame a _ _ _ D4 H5) as (P5 & w5 & D5 & _).
  rewrite (unpack_body_frame_received a e5 w5 R D5) in H6. injection H6 as <-.
  eexists. split; [reflexivity|]. cbn. congruence.
Qed.

(** C2, as amended.  (1) When the state attribute was received, the unpack
    writes the packed position, velocity, attitude quaternion, angular
    velocity and time into the working data; when the body-frame attribute
    was received, it writes the packed body-to-structural quaternion.
    (2) A pack followed at once by an unpack with every attribute received
    completes, for a working state whose four strings are bound, and gives
    back every numeric member of the working data except the state time,
    which comes back as the scenario time the pack stamped. *)
Theorem unpack_writes_received_numbers_and_round_trip :
  forall (t : double) (a : Attributes) (e : entity) (w : PhysicalEntityData),
    physical_data e = Some w ->
    (forall e',
        unpack_into_working_data a e = Ok e' ->
        exists w',
          physical_data e' = Some w' /\
          (is_received (state_attr a) = true ->
           state w' = state (pe_packing_data e)) /\
          (is_received (body_frame_attr a) = true ->
           body_wrt_struct w' = body_wrt_struct (pe_packing_data e)))
    /\
    (all_received a ->
     name w <> None -> type w <> None -> status w <> None -> parent_frame w <> None ->
     packing_ready (pe_packing_data e) ->
     exists e1 e2 w2,
       pack_from_working_data t e = Ok e1 /\
       unpack_into_working_data a e1 = Ok e2 /\
       physical_data e2 = Some w2 /\
       time (state w2) = t /\
       forall f, is_numeric f = true -> f <> F_time ->
                 field_value f w2 = field_value f w).
Proof.
  intros t a e w Hd. split.
  - intros e' H.
    destruct (frame_unpack_into_working_data a e e' w Hd H) as (_ & w' & D & _).
    exists w'. split; [exact D|]. split; intros R.
    + destruct (unpack_writes_state a e e' w Hd R H) as (w'' & D' & S). congruence.
    + destruct (unpack_writes_body_frame a e e' w Hd R H) as (w'' & D' & S). congruence.
  - intros (Rs & Rn & Rt & Ru & Rf & Rb) Hn Ht Hs Hf Rdy.
    pose proof (pack_from_working_data_ok t e w Hd Hn Hf Rdy) as Hpack.
    set (e1 := with_packing (packed_image t w) e) in *.
    assert (Hd1 : physical_data e1 = Some w) by exact Hd.
    assert (V : received_strings_present a (pe_packing_data e1))
      by (repeat split; intros _; assumption).
    destruct (unpack_into_working_data_total a e1 w Hd1 V) as (w2 & Hun).
    exists e1, (with_working w2 e1), w2.
    split; [exact Hpack|]. split; [exact Hun|]. split; [reflexivity|].
    destruct (unpack_writes_state a e1 _ w Hd1 Rs Hun) as (w2' & D' & S).
    destruct (unpack_writes_body_frame a e1 _ w Hd1 Rb Hun) as (w2'' & D'' & B).
    destruct (frame_unpack_into_working_data a e1 _ w Hd1 Hun) as (_ & w2''' & D''' & K).
    cbn in D', D'', D'''. injection D' as <-. injection D'' as <-. injection D''' as <-.
    cbn in S, B. split; [now rewrite S|].
    intros f Hnum Htime.
    destruct f; cbn in *; try congruence;
      try (now rewrite S); try (now rewrite B);
      try (apply (K F_accel eq_refl)); try (apply (K F_rot_accel eq_refl));
      try (apply (K F_cm eq_refl)).
Qed.

Lemma unpack_writes_received_numbers_and_round_trip_witness :
  physical_data Sample.local_entity = Some Sample.working /\
  all_received Sample.everything /\
  exists e1 e2 w2,
    pack_from_working_data 200%float Sample.local_entity = Ok e1 /\
    unpack_into_working_data Sample.everything e1 = Ok e2 /\
    physical_data e2 = Some w2 /\
    time (state w2) = 200%float /\
    forall f, is_numeric f = true -> f <> F_time ->
              field_value f w2 = field_value f Sample.working.
Proof.
  split; [reflexivity|]. split; [repeat split|].
  apply (unpack_writes_received_numbers_and_round_trip
           200%float Sample.everything Sample.local_entity Sample.working eq_refl).
  - repeat split.
  - discriminate.
  - discriminate.
  - discriminate.
  - discriminate.
  - split; discriminate.
Defined.

(** The round trip of C2 as the claim words it does not hold for the state
    time: the working data carries time 100, the pack stamps the scenario
    time 200, and the unpack brings 200 back. *)
Lemma round_trip_changes_state_time :
  exists e1 e2 w2,
    pack_from_working_data 200%float Sample.local_entity = Ok e1 /\
    unpack_into_working_data Sample.everything e1 = Ok e2 /\
    physical_data e2 = Some w2 /\
    is_numeric F_time = true /\
    field_value F_time Sample.working = VNum 100%float /\
    field_value F_time w2 = VNum 200%float /\
    field_value F_time w2 <> field_value F_time Sample.working.
Proof.
  eexists. eexists. eexists.
  split; [vm_compute; reflexivity|].
  split; [vm_compute; reflexivity|].
  split; [reflexivity|]. split; [reflexivity|].
  split; [reflexivity|]. split; [reflexivity|].
  intros H.
  apply (f_equal (fun v => match v with
                           | VNum x => PrimFloat.eqb x 100%float
                           | _ => false
                           end)) in H.
  vm_compute in H. discriminate.
Qed.

(* ================================================================== *)
(** * C6: empty incoming strings, NULL working name                    *)
(* ================================================================== *)

(** A bound working string never gets a new value from the string block:
    it is rewritten only when [strcmp] returns 0, that is with the value it
    already has. *)
Lemma unpack_string_keeps_bound_value attr get set a e e' w s :
  (forall x d, get (set x d) = x) ->
  physical_data e = Some w -> get w = Some s ->
  unpack_string attr get set a e = Ok e' ->
  exists w', physical_data e' = Some w' /\ get w' = Some s.
Proof.
  intros GS Hd Hw H. unfold unpack_string in H.
  destruct (is_received (attr a)).
  - rewrite Hd in H. cbn in H. rewrite Hw in H.
    destruct (get (pe_packing_data e)) as [q|]; cbn in H; [|discriminate].
    destruct (Z.eqb_spec (strcmp_val s q) 0) as [E|E]; cbn in H;
      injection H as <-.
    + apply strcmp_val_eq_iff in E. subst q.
      eexists. split; [reflexivity|]. apply GS.
    + exists w. auto.
  - injection H as <-. exists w. auto.
Qed.

(** The same for the parent frame: a bound working frame that differs from
    the received one is kept, whatever was received. *)
Lemma unpack_parent_frame_keeps_different a e w s q :
  is_received (parent_frame_attr a) = true ->
  physical_data e = Some w ->
  parent_frame w = Some s -> parent_frame (pe_packing_data e) = Some q -> s <> q ->
  unpack_parent_frame a e = Ok e.
Proof.
  intros R Hd Hw Hp Hne. unfold unpack_parent_frame. rewrite R, Hd. cbn.
  rewrite Hw, Hp. cbn.
  destruct (Z.eqb_spec (strcmp_val s q) 0) as [E|E]; [|reflexivity].
  apply strcmp_val_eq_iff in E. contradiction.
Qed.

(** C6.  The unpack on an entity whose working type is [Vehicle] and whose
    working parent frame is [MoonCentricInertial], with the empty string
    received for the type (first run) or for the parent frame (second
    run): both runs return the entity as it was, so the old type and the
    old parent frame stay in the working data. *)
Theorem unpack_keeps_stale_type_and_parent_frame :
  type Sample.working = Some "Vehicle" /\
  type Sample.incoming = Some EmptyString /\
  is_received (type_attr Sample.type_only) = true /\
  unpack_into_working_data Sample.type_only Sample.remote_entity
  = Ok Sample.remote_entity /\
  parent_frame Sample.working = Some "MoonCentricInertial" /\
  parent_frame Sample.incoming = Some EmptyString /\
  is_received (parent_frame_attr Sample.frame_only) = true /\
  unpack_into_working_data Sample.frame_only Sample.remote_entity
  = Ok Sample.remote_entity.
Proof. repeat split. Qed.

(** What C6 says of the pack holds: a NULL working name ends the run. *)
Lemma pack_requires_name (t : double) (e : entity) (w : PhysicalEntityData) :
  physical_data e = Some w -> name w = None ->
  exists msg, pack_from_working_data t e = Terminated msg.
Proof.
  intros Hd Hn. exists msg_null_name. exact (pack_null_name_terminates t e w Hd Hn).
Qed.

End PhysicalEntityProps.

(* ================================================================== *)
(** * C3: the configuration check of the integrating compensator       *)
(* ================================================================== *)

Lemma SFcompare_refl_not_Lt (x : SpecFloat.spec_float) :
  SpecFloat.SFcompare x x <> Some Lt.
Proof.
  assert (R : forall a, PosDef.Pos.compare_cont Eq a a = Eq)
    by (intros a; apply Pos.compare_refl).
  destruct x as [s|s| |s m e]; cbn; try discriminate.
  - destruct s; discriminate.
  - destruct s; rewrite Z.compare_refl, R; cbn; discriminate.
Qed.

Lemma SFcompare_Lt_asym (x y : SpecFloat.spec_float) :
  SpecFloat.SFcompare x y = Some Lt -> SpecFloat.SFcompare y x <> Some Lt.
Proof.
  assert (A : forall a b, PosDef.Pos.compare_cont Eq a b
                          = CompOpp (PosDef.Pos.compare_cont Eq b a))
    by (intros a b; apply Pos.compare_antisym).
  destruct x as [sx|sx| |sx mx ex], y as [sy|sy| |sy my ey]; cbn;
    try discriminate;
    try (destruct sx; discriminate); try (destruct sy; discriminate);
    try (destruct sx, sy; discriminate).
  destruct sx, sy; try discriminate.
  - rewrite (Z.compare_antisym ex ey).
    destruct (ex ?= ey)%Z; cbn; try discriminate.
    rewrite (A mx my).
    destruct (PosDef.Pos.compare_cont Eq my mx); cbn; discriminate.
  - rewrite (Z.compare_antisym ex ey).
    destruct (ex ?= ey)%Z; cbn; try discriminate.
    rewrite (A mx my).
    destruct (PosDef.Pos.compare_cont Eq my mx); cbn; discriminate.
Qed.

Lemma ltb_irrefl (x : double) : PrimFloat.ltb x x = false.
Proof.
  rewrite ltb_spec. unfold SpecFloat.SFltb.
  pose proof (SFcompare_refl_not_Lt (Prim2SF x)).
  destruct (SpecFloat.SFcompare (Prim2SF x) (Prim2SF x)) as [[]|]; congruence.
Qed.

Lemma ltb_asym (x y : double) : PrimFloat.ltb x y = true -> PrimFloat.ltb y x = false.
Proof.
  rewrite !ltb_spec. unfold SpecFloat.SFltb. intros H.
  destruct (SpecFloat.SFcompare (Prim2SF x) (Prim2SF y)) as [[]|] eqn:E;
    try discriminate.
  pose proof (SFcompare_Lt_asym _ _ E).
  destruct (SpecFloat.SFcompare (Prim2SF y) (Prim2SF x)) as [[]|]; congruence.
Qed.

(** The check ends the run exactly when [integ_dt < integ_tol]. *)
Lemma initialize_rejects_larger_tolerance (Obj : Type) (base : Obj -> outcome Obj)
      (integ_dt integ_tol : double) (o : Obj) :
  PrimFloat.ltb integ_dt integ_tol = true ->
  PhysicalEntityLagCompInteg.initialize Obj base integ_dt integ_tol o
  = Terminated PhysicalEntityLagCompInteg.msg_tolerance.
Proof. intros H. unfold PhysicalEntityLagCompInteg.initialize. now rewrite H. Qed.

(** A tolerance strictly below the step passes the check: the outcome is
    that of the base class initialisation. *)
Lemma initialize_accepts_smaller_tolerance (Obj : Type) (base : Obj -> outcome Obj)
      (integ_dt integ_tol : double) (o : Obj) :
  PrimFloat.ltb integ_tol integ_dt = true ->
  PhysicalEntityLagCompInteg.initialize Obj base integ_dt integ_tol o = base o.
Proof.
  intros H. unfold PhysicalEntityLagCompInteg.initialize.
  now rewrite (ltb_asym _ _ H).
Qed.

(** The scenario of the spec, [integ_dt = 0.01] and [integ_tol = 0.1], is
    rejected (the literals denote the nearest doubles). *)
Lemma initialize_rejects_spec_scenario (Obj : Type) (base : Obj -> outcome Obj) (o : Obj) :
  PhysicalEntityLagCompInteg.initialize Obj base
    0x1.47ae147ae147bp-7%float 0x1.999999999999ap-4%float o
  = Terminated PhysicalEntityLagCompInteg.msg_tolerance.
Proof. reflexivity. Qed.

(** C3.  A tolerance equal to the step is not rejected: the check is
    [integ_dt < integ_tol], false for equal values, so control reaches the
    base class initialisation although the tolerance is not less than the
    step.  In particular for [integ_dt = integ_tol = 0.0625]. *)
Theorem initialize_accepts_tolerance_equal_to_step :
  forall (Obj : Type) (base : Obj -> outcome Obj) (o : Obj),
    (forall x : double,
        PhysicalEntityLagCompInteg.initialize Obj base x x o = base o) /\
    PhysicalEntityLagCompInteg.initialize Obj base 0.0625%float 0.0625%float o = base o /\
    PrimFloat.ltb 0.0625%float 0.0625%float = false /\
    PrimFloat.leb 0.0625%float 0.0625%float = true.
Proof.
  intros Obj base o. split; [|split; [|split]]; try reflexivity.
  intros x. unfold PhysicalEntityLagCompInteg.initialize. now rewrite ltb_irrefl.
Qed.

(* ================================================================== *)
(** * Properties of the send and receive lag compensation              *)
(* ================================================================== *)

Section LagCompProps.

Import DynamicalEntityLagCompBase.
Local Open Scope list_scope.

Variable Entity : Type.
Context {EntityOps : DynamicalEntityBase Entity}.
Variable Base : Type.
Variable base_load_lag_comp_data : Entity -> Base -> Base.
Variable base_unload_lag_comp_data : Base -> Entity -> Entity.
Variable derivative_first : Base -> Base.
Variable compensate : double -> double -> lagcomp Base -> lagcomp Base.
Variable dm_invert_symm : mat33 -> mat33 -> Z * mat33.
Variable TM_SUCCESS : Z.

Local Abbreviation load := (load_lag_comp_data Entity Base base_load_lag_comp_data).
Local Abbreviation unload := (unload_lag_comp_data Entity Base base_unload_lag_comp_data).
Local Abbreviation state_part :=
  (receive_state_part Entity Base base_load_lag_comp_data derivative_first compensate).
Local Abbreviation invert := (invert_received_inertia Entity Base dm_invert_symm TM_SUCCESS).
Local Abbreviation compensated :=
  (receive_compensated Entity Base base_load_lag_comp_data derivative_first compensate
     dm_invert_symm TM_SUCCESS).
Local Abbreviation receive :=
  (receive_lag_compensation Entity Base base_load_lag_comp_data base_unload_lag_comp_data
     derivative_first compensate dm_invert_symm TM_SUCCESS).
Local Abbreviation send :=
  (send_lag_compensation Entity Base base_load_lag_comp_data base_unload_lag_comp_data
     derivative_first compensate).

Local Abbreviation world := (world Entity Base).
Local Abbreviation mkWorld := (mkWorld Entity Base).
Local Abbreviation attrs := (attrs Entity Base).
Local Abbreviation entity := (entity Entity Base).
Local Abbreviation lc := (lc Entity Base).
Local Abbreviation calls := (calls Entity Base).
Local Abbreviation lagcomp := (lagcomp Base).
Local Abbreviation inertia := (inertia Base).
Local Abbreviation inertia_inv := (inertia_inv Base).
Local Abbreviation set_inertia_inv := (set_inertia_inv Base).

(** The load copies the dynamical packing data and leaves the inverse. *)
Lemma load_lag_comp_data_spec (e : Entity) (l : lagcomp) :
  load e l =
  let d := de_packing_data e in
  mkLagComp Base (base_load_lag_comp_data e (base Base l)) (compensate_dt Base l)
            (DynamicalEntityData.force d) (DynamicalEntityData.torque d)
            (DynamicalEntityData.mass d) (DynamicalEntityData.mass_rate d)
            (DynamicalEntityData.inertia d) (DynamicalEntityData.inertia_rate d)
            (inertia_inv l).
Proof.
  unfold load_lag_comp_data. cbv zeta.
  destruct (de_packing_data e) as [[? ? ?] [? ? ?] ? ? [[? ? ?] [? ? ?] [? ? ?]]
                                     [[? ? ?] [? ? ?] [? ? ?]]].
  destruct l as [b dt [? ? ?] [? ? ?] ? ? [[? ? ?] [? ? ?] [? ? ?]]
                   [[? ? ?] [? ? ?] [? ? ?]] inv].
  reflexivity.
Qed.

(** The inertia branch, case by case. *)
Lemma invert_not_received (w : world) :
  is_received (inertia_attr (attrs w)) = false -> invert w = w.
Proof. intros R. unfold invert_received_inertia. now rewrite R. Qed.

Lemma invert_failure (w : world) :
  is_received (inertia_attr (attrs w)) = true ->
  fst (dm_invert_symm (inertia_inv (lc w)) (inertia (lc w)))
  <> TM_SUCCESS ->
  invert w =
  mkWorld (attrs w) (entity w)
          (set_inertia_inv (M_INIT (inertia_inv (lc w))) (lc w))
          (calls w ++ [InvertSymm (inertia (lc w)); SendHs msg_singular]).
Proof.
  intros R F. unfold invert_received_inertia. rewrite R.
  destruct (dm_invert_symm _ _) as [rc inv]. cbn in F.
  destruct (Z.eqb_spec rc TM_SUCCESS) as [E|E]; [contradiction|]. cbn.
  unfold with_lc, observe, set_inertia_inv. cbn.
  now rewrite <- app_assoc.
Qed.

Lemma invert_success (w : world) :
  is_received (inertia_attr (attrs w)) = true ->
  fst (dm_invert_symm (inertia_inv (lc w)) (inertia (lc w)))
  = TM_SUCCESS ->
  invert w =
  mkWorld (attrs w) (entity w)
          (set_inertia_inv
             (snd (dm_invert_symm (inertia_inv (lc w)) (inertia (lc w))))
             (lc w))
          (calls w ++ [InvertSymm (inertia (lc w))]).
Proof.
  intros R F. unfold invert_received_inertia. rewrite R.
  destruct (dm_invert_symm _ _) as [rc inv]. cbn in F. subst rc.
  now rewrite Z.eqb_refl.
Qed.

(** The branches of the receive never write the ownership store. *)
Lemma state_part_attrs env (w : world) : attrs (state_part env w) = attrs w.
Proof.
  unfold receive_state_part, compensate_received_state. cbn.
  now destruct (is_received (state_attr (attrs w))).
Qed.

Lemma invert_attrs (w : world) : attrs (invert w) = attrs w.
Proof.
  unfold invert_received_inertia.
  destruct (is_received (inertia_attr (attrs w))); [|reflexivity].
  destruct (dm_invert_symm _ _) as [rc inv].
  now destruct (negb (rc =? TM_SUCCESS)%Z).
Qed.

Lemma compensated_attrs env (w : world) : attrs (compensated env w) = attrs w.
Proof. unfold receive_compensated. now rewrite invert_attrs, state_part_attrs. Qed.

Lemma invert_entity (w : world) : entity (invert w) = entity w.
Proof.
  unfold invert_received_inertia.
  destruct (is_received (inertia_attr (attrs w))); [|reflexivity].
  destruct (dm_invert_symm _ _) as [rc inv].
  now destruct (negb (rc =? TM_SUCCESS)%Z).
Qed.

Lemma state_part_entity env (w : world) : entity (state_part env w) = entity w.
Proof.
  unfold receive_state_part, compensate_received_state. cbn.
  now destruct (is_received (state_attr (attrs w))).
Qed.

(** The receive completes exactly when the unpack of the entity does, and
    then returns the compensated data with the unpacked entity. *)
Lemma receive_unfold env (w : world) :
  receive env w =
  (e <- unpack_into_working_data (attrs w)
          (unload (lc (compensated env w)) (entity w)) ;;
   ret (mkWorld (attrs w) e (lc (compensated env w))
                (calls (compensated env w)))).
Proof.
  unfold receive_lag_compensation, with_entity. cbn.
  change (invert (state_part env w)) with (compensated env w).
  assert (E : entity (compensated env w) = entity w)
    by (unfold receive_compensated; now rewrite invert_entity, state_part_entity).
  rewrite compensated_attrs, E. reflexivity.
Qed.

(** The state branch, case by case. *)
Lemma state_part_received env (w : world) :
  is_received (state_attr (attrs w)) = true ->
  let end_t := scenario_time env in
  let data_t := get_time (entity w) in
  state_part env w
  = mkWorld (attrs w) (entity w)
      (compensate data_t end_t
         (upd_base Base derivative_first
            (load (entity w) (set_compensate_dt Base (end_t - data_t)%float (lc w)))))
      (calls w ++ [Compensate data_t end_t]).
Proof.
  intros R. unfold receive_state_part, compensate_received_state. cbn.
  rewrite R. reflexivity.
Qed.

Lemma state_part_not_received env (w : world) :
  is_received (state_attr (attrs w)) = false ->
  state_part env w
  = mkWorld (attrs w) (entity w)
      (set_compensate_dt Base (scenario_time env - get_time (entity w))%float (lc w))
      (calls w).
Proof.
  intros R. unfold receive_state_part, compensate_received_state. cbn.
  rewrite R. reflexivity.
Qed.

Lemma load_keeps_inverse (e : Entity) (l : lagcomp) :
  inertia_inv (upd_base Base derivative_first (load e l)) = inertia_inv l.
Proof. rewrite load_lag_comp_data_spec. reflexivity. Qed.

Lemma invert_keeps_compensate_calls (w : world) :
  filter is_compensate (calls (invert w)) = filter is_compensate (calls w).
Proof.
  unfold invert_received_inertia.
  destruct (is_received (inertia_attr (attrs w))); [|reflexivity].
  destruct (dm_invert_symm _ _) as [rc inv].
  destruct (negb (rc =? TM_SUCCESS)%Z); cbn;
    rewrite ?filter_app; cbn; now rewrite ?app_nil_r.
Qed.

(** The inertia branch writes the inverse and nothing else of the
    compensator. *)
Lemma invert_keeps_compensated_data (w : world) :
  set_inertia_inv (inertia_inv (lc w)) (lc (invert w)) = lc w.
Proof.
  unfold invert_received_inertia.
  destruct (is_received (inertia_attr (attrs w))); [|now destruct (lc w)].
  destruct (dm_invert_symm _ _) as [rc inv].
  destruct (negb (rc =? TM_SUCCESS)%Z); cbn; now destruct (lc w).
Qed.

(** The send, once the pack of the entity has completed. *)
Lemma send_unfold env (w : world) (e1 : Entity) :
  pack_from_working_data (scenario_time env) (entity w) = Ok e1 ->
  let begin_t := scenario_time env in
  let end_t := (begin_t + lookahead env)%float in
  let l := compensate begin_t end_t
             (upd_base Base derivative_first
                (load e1 (set_compensate_dt Base (lookahead env) (lc w)))) in
  send env w =
  Ok (mkWorld (attrs w) (unload l e1) l (calls w ++ [Compensate begin_t end_t])).
Proof.
  intros H. unfold send_lag_compensation. cbn. rewrite H. reflexivity.
Qed.

(** The inertia branch on the matrix the compensator holds.  In a receive
    where the inertia attribute was received and the inversion of the
    compensator's own inertia matrix fails, the inverse is left as the zero
    matrix (all entries finite), the failure is reported once through
    [send_hs], and the job goes on: it completes with that inverse whenever
    the unpack of the entity completes.  In a receive where the inertia
    attribute was not received, the inertia branch does nothing: no
    inversion is attempted and the inverse is the one the state branch
    left, which is the one from before the job when the state was not
    received either, or when [compensate] does not write it.  When the
    attribute was received the inversion is attempted on the inertia the
    compensator holds at that point. *)
Theorem singular_inertia_zeroes_the_inverse :
  forall (env : exec_env) (w : world),
    let w1 := state_part env w in
    let w2 := compensated env w in
    let zero := Vec3 0%float 0%float 0%float in
    (is_received (inertia_attr (attrs w)) = true ->
     fst (dm_invert_symm (inertia_inv (lc w1)) (inertia (lc w1))) <> TM_SUCCESS ->
     inertia_inv (lc w2) = Mat33 zero zero zero /\
     mat_finite (inertia_inv (lc w2)) = true /\
     calls w2 = calls w1 ++ [InvertSymm (inertia (lc w1)); SendHs msg_singular] /\
     forall e',
       unpack_into_working_data (attrs w) (unload (lc w2) (entity w)) = Ok e' ->
       exists w',
         receive env w = Ok w' /\ lc w' = lc w2 /\ calls w' = calls w2 /\
         entity w' = e')
    /\
    (is_received (inertia_attr (attrs w)) = true ->
     exists rest, calls w2 = calls w1 ++ InvertSymm (inertia (lc w1)) :: rest)
    /\
    (is_received (inertia_attr (attrs w)) = false ->
     w2 = w1 /\
     (is_received (state_attr (attrs w)) = false ->
      inertia_inv (lc w2) = inertia_inv (lc w)) /\
     ((forall b e l, inertia_inv (compensate b e l) = inertia_inv l) ->
      inertia_inv (lc w2) = inertia_inv (lc w))).
Proof.
  intros env w w1 w2 zero.
  assert (A1 : attrs w1 = attrs w) by apply state_part_attrs.
  split; [|split].
  - intros R F. rewrite <- A1 in R.
    assert (E : w2 = invert w1) by reflexivity.
    rewrite (invert_failure w1 R F) in E.
    repeat split; try (rewrite E; reflexivity).
    intros e' H. rewrite receive_unfold. fold w2. rewrite H. cbn.
    eexists. split; [reflexivity|]. repeat split.
  - intros R. rewrite <- A1 in R.
    assert (E : w2 = invert w1) by reflexivity.
    destruct (Z.eq_dec
                (fst (dm_invert_symm (inertia_inv (lc w1)) (inertia (lc w1))))
                TM_SUCCESS) as [S|F].
    + rewrite (invert_success w1 R S) in E. rewrite E. eexists. reflexivity.
    + rewrite (invert_failure w1 R F) in E. rewrite E. eexists. reflexivity.
  - intros R. rewrite <- A1 in R.
    assert (E : w2 = w1) by (apply invert_not_received; exact R).
    split; [exact E|]. rewrite E. subst w1.
    split.
    + intros Rs. rewrite (state_part_not_received env w Rs). reflexivity.
    + intros K. destruct (is_received (state_attr (attrs w))) eqn:Rs.
      * rewrite (state_part_received env w Rs).
        cbv zeta. cbn [DynamicalEntityLagCompBase.lc].
        rewrite K. now rewrite load_keeps_inverse.
      * rewrite (state_part_not_received env w Rs). reflexivity.
Qed.

(** C5.  Receive: the compensation is called exactly when the state
    attribute was received, once, from the time of the entity's data to the
    scenario time, on the freshly loaded data; otherwise nothing is loaded
    or compensated and the compensator keeps the data of the previous cycle
    (only the time step, and possibly the inverse of the inertia, are
    written).  Send: the entity is packed, and the packed data is
    compensated from the scenario time to the scenario time plus the
    lookahead.  Either job completes when the pack, respectively the
    unpack, of the entity completes. *)
Theorem compensation_follows_state_reception :
  forall (env : exec_env) (w : world),
    let end_t := scenario_time env in
    let data_t := get_time (entity w) in
    let l0 := set_compensate_dt Base (end_t - data_t)%float (lc w) in
    (is_received (state_attr (attrs w)) = true ->
     lc (state_part env w)
     = compensate data_t end_t (upd_base Base derivative_first (load (entity w) l0)) /\
     calls (state_part env w) = calls w ++ [Compensate data_t end_t])
    /\
    (is_received (state_attr (attrs w)) = false ->
     lc (state_part env w) = l0 /\ calls (state_part env w) = calls w)
    /\
    (forall w',
        receive env w = Ok w' ->
        filter is_compensate (calls w')
        = filter is_compensate (calls w)
          ++ (if is_received (state_attr (attrs w))
              then [Compensate data_t end_t] else []) /\
        (is_received (state_attr (attrs w)) = false ->
         set_inertia_inv (inertia_inv (lc w))
           (set_compensate_dt Base (compensate_dt Base (lc w)) (lc w')) = lc w))
    /\
    (forall e',
        unpack_into_working_data (attrs w)
          (unload (lc (compensated env w)) (entity w)) = Ok e' ->
        completes (receive env w))
    /\
    (forall w',
        send env w = Ok w' ->
        let begin_t := scenario_time env in
        exists e1,
          pack_from_working_data begin_t (entity w) = Ok e1 /\
          lc w' = compensate begin_t (begin_t + lookahead env)%float
                    (upd_base Base derivative_first
                       (load e1 (set_compensate_dt Base (lookahead env) (lc w)))) /\
          entity w' = unload (lc w') e1 /\
          calls w' = calls w ++ [Compensate begin_t (begin_t + lookahead env)%float])
    /\
    (forall e1,
        pack_from_working_data (scenario_time env) (entity w) = Ok e1 ->
        completes (send env w)).
Proof.
  intros env w end_t data_t l0.
  assert (Sy : is_received (state_attr (attrs w)) = true ->
               state_part env w
               = mkWorld (attrs w) (entity w)
                   (compensate data_t end_t
                      (upd_base Base derivative_first (load (entity w) l0)))
                   (calls w ++ [Compensate data_t end_t]))
    by (intros R; exact (state_part_received env w R)).
  assert (Sn : is_received (state_attr (attrs w)) = false ->
               state_part env w = mkWorld (attrs w) (entity w) l0 (calls w))
    by (intros R; exact (state_part_not_received env w R)).
  split; [|split; [|split; [|split; [|split]]]].
  - intros R. rewrite (Sy R). split; reflexivity.
  - intros R. rewrite (Sn R). split; reflexivity.
  - intros w' H. rewrite receive_unfold in H.
    apply bind_Ok_inv in H as (e' & _ & H). injection H as <-. cbn.
    unfold receive_compensated. rewrite invert_keeps_compensate_calls. split.
    + destruct (is_received (state_attr (attrs w))) eqn:R.
      * rewrite (Sy eq_refl). cbn. rewrite filter_app. reflexivity.
      * rewrite (Sn eq_refl). cbn. now rewrite app_nil_r.
    + intros R.
      pose proof (invert_keeps_compensated_data (state_part env w)) as K.
      rewrite (Sn R) in K |- *. clear Sy Sn.
      cbn [DynamicalEntityLagCompBase.lc] in K.
      destruct (lc (invert (mkWorld (attrs w) (entity w) l0 (calls w)))).
      subst l0. destruct (lc w).
      unfold DynamicalEntityLagCompBase.set_inertia_inv,
        DynamicalEntityLagCompBase.set_compensate_dt in *.
      cbn in *. congruence.
  - intros e' H. rewrite receive_unfold, H. cbn. eexists. reflexivity.
  - intros w' H begin_t.
    destruct (pack_from_working_data (scenario_time env) (entity w)) as [e1| |] eqn:P;
      try (unfold send_lag_compensation in H; cbn in H; rewrite P in H; discriminate).
    rewrite (send_unfold env w e1 P) in H. injection H as <-.
    exists e1. repeat split. exact P.
  - intros e1 P. rewrite (send_unfold env w e1 P). eexists. reflexivity.
Qed.

(** C8.  Neither the send nor the receive writes an attribute ownership
    record: the store of [locally_owned], [changed_since_send] and
    [received_this_cycle] flags a completed job returns is the one it was
    given.  The same holds for the two bypass jobs. *)
Theorem lag_compensation_keeps_ownership_records :
  forall (env : exec_env) (w w' : world),
    (send env w = Ok w' -> attrs w' = attrs w) /\
    (receive env w = Ok w' -> attrs w' = attrs w) /\
    (bypass_send_lag_compensation Entity Base env w = Ok w' -> attrs w' = attrs w) /\
    (bypass_receive_lag_compensation Entity Base w = Ok w' -> attrs w' = attrs w).
Proof.
  intros env w w'. repeat split; intros H.
  - unfold send_lag_compensation in H.
    apply bind_Ok_inv in H as (e & _ & H). injection H as <-. reflexivity.
  - rewrite receive_unfold in H.
    apply bind_Ok_inv in H as (e & _ & H). injection H as <-. reflexivity.
  - unfold bypass_send_lag_compensation in H.
    apply bind_Ok_inv in H as (e & _ & H). injection H as <-. reflexivity.
  - unfold bypass_receive_lag_compensation in H.
    apply bind_Ok_inv in H as (e & _ & H). injection H as <-. reflexivity.
Qed.

End LagCompProps.

Lemma singular_inertia_zeroes_the_inverse_witness :
  is_received (inertia_attr
                 (DynamicalEntityLagCompBase.attrs _ _ Sample.receiving)) = true /\
  fst (Sample.invert_symm
         (DynamicalEntityLagCompBase.inertia_inv _
            (DynamicalEntityLagCompBase.lc _ _
               (Sample.state_part0 Sample.env0 Sample.receiving)))
         (DynamicalEntityLagCompBase.inertia _
            (DynamicalEntityLagCompBase.lc _ _
               (Sample.state_part0 Sample.env0 Sample.receiving)))) <> 0%Z /\
  DynamicalEntityLagCompBase.inertia_inv _
    (DynamicalEntityLagCompBase.lc _ _
       (Sample.compensated0 Sample.env0 Sample.receiving)) = Sample.zero33.
Proof.
  assert (R : is_received (inertia_attr
                (DynamicalEntityLagCompBase.attrs _ _ Sample.receiving)) = true)
    by reflexivity.
  assert (F : fst (Sample.invert_symm
         (DynamicalEntityLagCompBase.inertia_inv _
            (DynamicalEntityLagCompBase.lc _ _
               (Sample.state_part0 Sample.env0 Sample.receiving)))
         (DynamicalEntityLagCompBase.inertia _
            (DynamicalEntityLagCompBase.lc _ _
               (Sample.state_part0 Sample.env0 Sample.receiving)))) <> 0%Z)
    by (vm_compute; discriminate).
  split; [exact R|]. split; [exact F|].
  exact (proj1 (proj1 (@singular_inertia_zeroes_the_inverse
                         Sample.probe Sample.probe_entity SpaceTimeCoordinateData
                         Sample.probe_load Sample.probe_unload
                         Sample.probe_derivative Sample.drift
                         Sample.invert_symm 0%Z Sample.env0 Sample.receiving) R F)).
Defined.

Lemma compensation_follows_state_reception_witness :
  is_received (state_attr
                 (DynamicalEntityLagCompBase.attrs _ _ Sample.receiving)) = true /\
  DynamicalEntityLagCompBase.calls _ _
    (Sample.state_part0 Sample.env0 Sample.receiving)
  = [DynamicalEntityLagCompBase.Compensate 250%float 260%float].
Proof.
  split; [reflexivity|].
  exact (proj2 (proj1 (@compensation_follows_state_reception
                         Sample.probe Sample.probe_entity SpaceTimeCoordinateData
                         Sample.probe_load Sample.probe_unload
                         Sample.probe_derivative Sample.drift
                         Sample.invert_symm 0%Z Sample.env0 Sample.receiving)
                 eq_refl)).
Defined.

Lemma lag_compensation_keeps_ownership_records_witness :
  (exists w',
      Sample.send0 Sample.env0 Sample.sending = Ok w' /\
      DynamicalEntityLagCompBase.attrs _ _ w'
      = DynamicalEntityLagCompBase.attrs _ _ Sample.sending) /\
  (exists w',
      Sample.receive0 Sample.env0 Sample.receiving = Ok w' /\
      DynamicalEntityLagCompBase.attrs _ _ w'
      = DynamicalEntityLagCompBase.attrs _ _ Sample.receiving).
Proof.
  split.
  - eexists. split; [vm_compute; reflexivity|].
    apply (proj1 (@lag_compensation_keeps_ownership_records
                    Sample.probe Sample.probe_entity SpaceTimeCoordinateData
                    Sample.probe_load Sample.probe_unload
                    Sample.probe_derivative Sample.drift
                    Sample.invert_symm 0%Z Sample.env0 Sample.sending _)).
    vm_compute. reflexivity.
  - eexists. split; [vm_compute; reflexivity|].
    apply (proj1 (proj2 (@lag_compensation_keeps_ownership_records
                    Sample.probe Sample.probe_entity SpaceTimeCoordinateData
                    Sample.probe_load Sample.probe_unload
                    Sample.probe_derivative Sample.drift
                    Sample.invert_symm 0%Z Sample.env0 Sample.receiving _))).
    vm_compute. reflexivity.
Defined.

(** C4.  A receive in which a singular inertia matrix arrives and the state
    does not, for a compensator that holds the identity as inertia and the
    zero matrix as inverse.  The packing data is loaded only in the state
    branch, so the inversion routine, whichever it is, is handed the
    identity and never the received matrix.  With a routine that fails on
    singular matrices the job completes with the identity as inverse and
    without any report, and the received matrix is replaced in the packing
    data by the identity before the unpack. *)
Theorem received_singular_inertia_is_not_inverted_without_state :
  is_received (state_attr
                 (DynamicalEntityLagCompBase.attrs _ _ Sample2.inertia_alone)) = false /\
  is_received (inertia_attr
                 (DynamicalEntityLagCompBase.attrs _ _ Sample2.inertia_alone)) = true /\
  DynamicalEntityData.inertia
    (@de_packing_data Sample.probe Sample.probe_entity
       (DynamicalEntityLagCompBase.entity _ _ Sample2.inertia_alone))
  = Sample.singular33 /\
  fst (Sample.invert_symm Sample.zero33 Sample.singular33) <> 0%Z /\
  (forall (dm_invert_symm : mat33 -> mat33 -> Z * mat33) (TM_SUCCESS : Z),
      exists rest,
        DynamicalEntityLagCompBase.calls _ _
          (@DynamicalEntityLagCompBase.receive_compensated
             Sample.probe Sample.probe_entity SpaceTimeCoordinateData
             Sample.probe_load Sample.probe_derivative Sample.drift
             dm_invert_symm TM_SUCCESS Sample.env0 Sample2.inertia_alone)
        = DynamicalEntityLagCompBase.InvertSymm Sample.identity33 :: rest) /\
  exists w',
    Sample.receive0 Sample.env0 Sample2.inertia_alone = Ok w' /\
    DynamicalEntityLagCompBase.inertia_inv _
      (DynamicalEntityLagCompBase.lc _ _ w') = Sample.identity33 /\
    DynamicalEntityLagCompBase.calls _ _ w'
    = [DynamicalEntityLagCompBase.InvertSymm Sample.identity33] /\
    DynamicalEntityData.inertia
      (@de_packing_data Sample.probe Sample.probe_entity
         (DynamicalEntityLagCompBase.entity _ _ w'))
    = Sample.identity33.
Proof.
  split; [reflexivity|]. split; [reflexivity|]. split; [reflexivity|].
  split; [vm_compute; discriminate|]. split.
  - intros dm ok.
    unfold DynamicalEntityLagCompBase.receive_compensated,
      DynamicalEntityLagCompBase.receive_state_part,
      DynamicalEntityLagCompBase.compensate_received_state,
      DynamicalEntityLagCompBase.invert_received_inertia.
    cbn.
    destruct (dm Sample.zero33 Sample.identity33) as [rc inv].
    destruct (negb (rc =? ok)%Z); eexists; reflexivity.
  - eexists. split; [vm_compute; reflexivity|].
    split; [vm_compute; reflexivity|].
    split; vm_compute; reflexivity.
Qed.

(* ================================================================== *)
(** * C10: the default send condition                                  *)
(* ================================================================== *)

(** C10.  The default [Conditional::should_send] answers true for every
    attribute, whatever its flags (and for a NULL attribute pointer), and
    whatever object the callback is bound to. *)
Theorem default_should_send_is_true :
  forall (Object : Type) (c : Conditional.conditional Object)
         (attr : option Attribute),
    Conditional.should_send Object c attr = true.
Proof. intros Object c attr. reflexivity. Qed.

(* ================================================================== *)
(** * C9: timed synchronization points                                 *)
(* ================================================================== *)

Section SyncPntProps.

Import TimedSyncPntList.
Local Open Scope Z_scope.

Lemma achieve_all_flag (t : Int64Time) (ps : sync_pnt_list) :
  snd (achieve_all_sync_pnts_at t ps) = existsb (fun p => eligible p t) ps.
Proof.
  induction ps as [|p rest IH]; [reflexivity|]. cbn.
  destruct (achieve_all_sync_pnts_at t rest) as [rest' any]. cbn in IH.
  destruct (eligible p t); cbn; [reflexivity | exact IH].
Qed.

Lemma achieve_all_points (t : Int64Time) (ps : sync_pnt_list) :
  fst (achieve_all_sync_pnts_at t ps)
  = map (fun p => if eligible p t then achieve p else p) ps.
Proof.
  induction ps as [|p rest IH]; [reflexivity|]. cbn.
  destruct (achieve_all_sync_pnts_at t rest) as [rest' any]. cbn in IH.
  destruct (eligible p t); cbn; now rewrite IH.
Qed.

Lemma eligible_iff (p : TimedSyncPnt) (t : Int64Time) :
  eligible p t = true <-> achieved p = false /\ ready p t = true.
Proof.
  unfold eligible. rewrite andb_true_iff, negb_true_iff. reflexivity.
Qed.

(** No point is eligible twice: a second pass at the same time achieves
    nothing. *)
Lemma achieve_all_twice (t : Int64Time) (ps : sync_pnt_list) :
  snd (achieve_all_sync_pnts_at t (fst (achieve_all_sync_pnts_at t ps))) = false.
Proof.
  rewrite achieve_all_flag, achieve_all_points.
  induction ps as [|p rest IH]; [reflexivity|]. cbn. rewrite IH, orb_false_r.
  destruct (eligible p t) eqn:E; [reflexivity | exact E].
Qed.

(** C9.  A point with target time [tt] is ready at [t] exactly when
    [tt <= t]; a point registered for 10.0 s is not ready at 9.9 s and is
    ready at 10.0 s; and [achieve_all] at [t] answers true exactly when the
    list holds a point that was not achieved and is ready at [t] -- each
    such point, and no other, is marked achieved. *)
Theorem sync_point_readiness_and_achieve_all :
  (forall (l : string) (tt : Int64Time) (a : bool) (t : Int64Time),
      ready (mkSyncPnt l (Some tt) a) t = true <-> tt <= t) /\
  (forall (l : string) (tt t : Int64Time),
      is_ready (add_sync_pnt_at l tt []) l t = true <-> tt <= t) /\
  is_ready (add_sync_pnt_at "sp" (seconds 10 0) []) "sp" (seconds 9 900000) = false /\
  is_ready (add_sync_pnt_at "sp" (seconds 10 0) []) "sp" (seconds 10 0) = true /\
  (forall (t : Int64Time) (ps : sync_pnt_list),
      snd (achieve_all_sync_pnts_at t ps) = true <->
      exists p, In p ps /\ achieved p = false /\ ready p t = true) /\
  (forall (t : Int64Time) (ps : sync_pnt_list),
      fst (achieve_all_sync_pnts_at t ps)
      = map (fun p => if eligible p t then achieve p else p) ps).
Proof.
  split; [|split; [|split; [|split; [|split]]]].
  - intros l tt a t. unfold ready. cbn. apply Z.leb_le.
  - intros l tt t. unfold is_ready, add_sync_pnt_at. cbn.
    rewrite String.eqb_refl. unfold ready. cbn. apply Z.leb_le.
  - reflexivity.
  - reflexivity.
  - intros t ps. rewrite achieve_all_flag, existsb_exists. split.
    + intros (p & Hin & E). apply eligible_iff in E. exists p. tauto.
    + intros (p & Hin & E). exists p. split; [exact Hin|]. now apply eligible_iff.
  - apply achieve_all_points.
Qed.

End SyncPntProps.

(* ================================================================== *)
(** * Further properties of PhysicalEntity                             *)
(* ================================================================== *)

Section PhysicalEntityMore.

Import PhysicalEntity PhysicalEntitySpec UnpackSpec.

(** ** The outcome of the pack, case by case *)

Lemma pack_required_fault get set msg w p s :
  get w = Some s -> get p = None -> pack_required get set msg w p = Fault.
Proof. intros Hw Hp. unfold pack_required. now rewrite Hw, Hp. Qed.

Lemma pack_name_unbound_packing_faults t e w :
  physical_data e = Some w -> name w <> None -> name (pe_packing_data e) = None ->
  pack_from_working_data t e = Fault.
Proof.
  intros Hd Hn Hp. destruct (name w) as [s|] eqn:En; [|congruence].
  unfold pack_from_working_data. rewrite Hd. run.
  now rewrite (pack_required_fault name set_name _ w _ s En Hp).
Qed.

Lemma pack_frame_unbound_packing_faults t e w :
  physical_data e = Some w -> name w <> None -> name (pe_packing_data e) <> None ->
  parent_frame w <> None -> parent_frame (pe_packing_data e) = None ->
  pack_from_working_data t e = Fault.
Proof.
  intros Hd Hn Rn Hf Hp.
  destruct (name w) as [sn|] eqn:En; [|congruence].
  destruct (parent_frame w) as [sf|] eqn:Ef; [|congruence].
  unfold pack_from_working_data. rewrite Hd. run.
  rewrite (pack_name_ok _ _ _ _ En Rn). run.
  rewrite pack_type_ok. run. rewrite pack_status_ok. run.
  rewrite (pack_required_fault parent_frame set_parent_frame _ w _ sf Ef);
    [reflexivity|].
  destruct (pe_packing_data e); exact Hp.
Qed.

(** The pack in closed form. *)
Lemma pack_closed_form (t : double) (e : entity) :
  pack_from_working_data t e =
  match physical_data e with
  | None => Fault
  | Some w =>
      match name w, name (pe_packing_data e) with
      | None, _ => Terminated msg_null_name
      | Some _, None => Fault
      | Some _, Some _ =>
          match parent_frame w, parent_frame (pe_packing_data e) with
          | None, _ => Terminated msg_null_frame
          | Some _, None => Fault
          | Some _, Some _ => Ok (with_packing (packed_image t w) e)
          end
      end
  end.
Proof.
  destruct (physical_data e) as [w|] eqn:Hd;
    [|unfold pack_from_working_data; now rewrite Hd].
  destruct (name w) as [sn|] eqn:En;
    [|exact (pack_null_name_terminates t e w Hd En)].
  assert (Hn : name w <> None) by congruence.
  destruct (name (pe_packing_data e)) as [pn|] eqn:Ep;
    [|exact (pack_name_unbound_packing_faults t e w Hd Hn Ep)].
  assert (Rn : name (pe_packing_data e) <> None) by congruence.
  destruct (parent_frame w) as [sf|] eqn:Ef;
    [|exact (pack_null_frame_terminates t e w Hd Hn Rn Ef)].
  assert (Hf : parent_frame w <> None) by congruence.
  destruct (parent_frame (pe_packing_data e)) as [pf|] eqn:Epf;
    [|exact (pack_frame_unbound_packing_faults t e w Hd Hn Rn Hf Epf)].
  apply pack_from_working_data_ok; trivial. split; congruence.
Qed.

(** X1.  A pack that completes leaves in [pe_packing_data] a copy of the
    working data in which only the state time differs (it is the scenario
    time): the four strings, NULL type or status included, are those of the
    working data.  The working data itself is not touched. *)
Theorem pack_leaves_copy_of_working_data :
  forall (t : double) (e e' : entity) (w : PhysicalEntityData),
    physical_data e = Some w ->
    pack_from_working_data t e = Ok e' ->
    physical_data e' = Some w /\
    pe_packing_data e' = upd_state (upd_time t) w /\
    name (pe_packing_data e') = name w /\
    type (pe_packing_data e') = type w /\
    status (pe_packing_data e') = status w /\
    parent_frame (pe_packing_data e') = parent_frame w.
Proof.
  intros t e e' w Hd H. rewrite pack_closed_form, Hd in H.
  destruct (name w) eqn:En, (name (pe_packing_data e)); try discriminate.
  destruct (parent_frame w) eqn:Ef, (parent_frame (pe_packing_data e));
    try discriminate.
  injection H as <-. cbn. repeat split; try exact Hd; try reflexivity;
    first [assumption | symmetry; assumption].
Qed.

Lemma pack_leaves_copy_of_working_data_witness :
  physical_data Sample.local_entity = Some Sample.working /\
  exists e',
    pack_from_working_data 200%float Sample.local_entity = Ok e' /\
    pe_packing_data e' = upd_state (upd_time 200%float) Sample.working.
Proof.
  split; [reflexivity|]. eexists. split; [vm_compute; reflexivity|].
  apply (pack_leaves_copy_of_working_data 200%float Sample.local_entity _
           Sample.working eq_refl).
  vm_compute. reflexivity.
Defined.

(** X2.  The pack completes exactly when the working data is bound, its
    name and parent frame are not NULL, and the name and parent frame of
    the packing record are not NULL either. *)
Theorem pack_completes_iff :
  forall (t : double) (e : entity),
    completes (pack_from_working_data t e) <->
    exists w,
      physical_data e = Some w /\
      name w <> None /\ parent_frame w <> None /\
      packing_ready (pe_packing_data e).
Proof.
  intros t e. rewrite pack_closed_form. unfold packing_ready. split.
  - intros (e' & H). destruct (physical_data e) as [w|]; [|discriminate].
    exists w.
    destruct (name w), (name (pe_packing_data e)); try discriminate.
    destruct (parent_frame w), (parent_frame (pe_packing_data e)); try discriminate.
    repeat split; discriminate.
  - intros (w & -> & Hn & Hf & Rn & Rf).
    destruct (name w), (name (pe_packing_data e)); try congruence.
    destruct (parent_frame w), (parent_frame (pe_packing_data e)); try congruence.
    eexists. reflexivity.
Qed.

(** X3.  The pack ends the run in exactly two situations: the working name
    is NULL (first message), or the working name and the packed name are
    bound and the working parent frame is NULL (second message).  The name
    is examined first. *)
Theorem pack_terminates_iff :
  forall (t : double) (e : entity) (m : string),
    pack_from_working_data t e = Terminated m <->
    exists w,
      physical_data e = Some w /\
      ((name w = None /\ m = msg_null_name) \/
       (name w <> None /\ name (pe_packing_data e) <> None /\
        parent_frame w = None /\ m = msg_null_frame)).
Proof.
  intros t e m. rewrite pack_closed_form. split.
  - intros H. destruct (physical_data e) as [w|]; [|discriminate].
    exists w. split; [reflexivity|].
    destruct (name w); [|left; split; congruence].
    destruct (name (pe_packing_data e)); [|discriminate].
    destruct (parent_frame w);
      [destruct (parent_frame (pe_packing_data e)); discriminate|].
    right. repeat split; congruence.
  - intros (w & -> & [(Hn & ->) | (Hn & Rn & Hf & ->)]).
    + now rewrite Hn.
    + destruct (name w), (name (pe_packing_data e)); try congruence.
      now rewrite Hf.
Qed.

(** X4.  Packing again right after a completed pack only restamps the time
    tag: the second pack completes and changes nothing else in the packing
    record; at the same scenario time it changes nothing at all. *)
Theorem second_pack_only_restamps_time :
  forall (t t' : double) (e e1 : entity),
    pack_from_working_data t e = Ok e1 ->
    pack_from_working_data t' e1
    = Ok (with_packing (upd_state (upd_time t') (pe_packing_data e1)) e1) /\
    pack_from_working_data t e1 = Ok e1.
Proof.
  intros t t' e e1 H.
  assert (C : forall u, pack_from_working_data u e1
                        = Ok (with_packing (upd_state (upd_time u) (pe_packing_data e1)) e1)).
  { intros u. rewrite pack_closed_form in H.
    destruct (physical_data e) as [w|] eqn:Hd; [|discriminate].
    destruct (name w) as [sn|] eqn:En; [|discriminate].
    destruct (name (pe_packing_data e)); [|discriminate].
    destruct (parent_frame w) as [sf|] eqn:Ef; [|discriminate].
    destruct (parent_frame (pe_packing_data e)); [|discriminate].
    injection H as <-. rewrite pack_closed_form. cbn. rewrite Hd. cbn.
    rewrite En, Ef. reflexivity. }
  split; [apply C|]. rewrite C. f_equal.
  rewrite pack_closed_form in H.
  destruct (physical_data e) as [w|] eqn:Hd; [|discriminate].
  destruct (name w), (name (pe_packing_data e)); try discriminate.
  destruct (parent_frame w), (parent_frame (pe_packing_data e)); try discriminate.
  injection H as <-. reflexivity.
Qed.

Lemma second_pack_only_restamps_time_witness :
  exists e1,
    pack_from_working_data 200%float Sample.local_entity = Ok e1 /\
    pack_from_working_data 200%float e1 = Ok e1.
Proof.
  eexists. split; [vm_compute; reflexivity|].
  apply (second_pack_only_restamps_time 200%float 200%float Sample.local_entity).
  vm_compute. reflexivity.
Defined.

(** ** The unpack in closed form *)

Lemma strcmp_zero_eqb (s q : string) :
  (strcmp_val s q =? 0)%Z = String.eqb s q.
Proof.
  destruct (String.eqb_spec s q) as [->|Hne].
  - now rewrite strcmp_val_refl.
  - apply Z.eqb_neq. intros E. now apply strcmp_val_eq_iff in E.
Qed.

Lemma unpack_state_closed a e w :
  physical_data e = Some w ->
  unpack_state a e
  = Ok (with_working
          (upd_state (fun s => if is_received (state_attr a)
                               then state (pe_packing_data e) else s) w) e).
Proof.
  intros Hd. destruct (is_received (state_attr a)) eqn:R.
  - exact (unpack_state_received a e w R Hd).
  - unfold unpack_state. rewrite R. unfold ret.
    replace (upd_state (fun s => s) w) with w by now destruct w.
    now rewrite with_working_self.
Qed.

Lemma unpack_body_frame_closed a e w :
  physical_data e = Some w ->
  unpack_body_frame a e
  = Ok (with_working
          (upd_body_wrt_struct
             (fun q => if is_received (body_frame_attr a)
                       then body_wrt_struct (pe_packing_data e) else q) w) e).
Proof.
  intros Hd. destruct (is_received (body_frame_attr a)) eqn:R.
  - exact (unpack_body_frame_received a e w R Hd).
  - unfold unpack_body_frame. rewrite R. unfold ret.
    replace (upd_body_wrt_struct (fun q => q) w) with w by now destruct w.
    now rewrite with_working_self.
Qed.

Lemma unpack_string_closed attr get set a e e' w :
  (forall d, set (get d) d = d) ->
  physical_data e = Some w ->
  unpack_string attr get set a e = Ok e' ->
  e' = with_working
         (set (string_after (is_received (attr a)) (get w)
                 (get (pe_packing_data e))) w) e /\
  (is_received (attr a) = true -> get (pe_packing_data e) <> None).
Proof.
  intros Law Hd H. unfold unpack_string in H.
  assert (Self : e = with_working (set (get w) w) e)
    by (rewrite Law; symmetry; now apply with_working_self).
  destruct (is_received (attr a)); cbn.
  - rewrite Hd in H. cbn in H.
    destruct (get (pe_packing_data e)) as [q|];
      [|destruct (get w); cbn in H; discriminate].
    destruct (get w) as [s|] eqn:Hw; cbn in H.
    + destruct (Z.eqb_spec (strcmp_val s q) 0) as [E|E]; cbn in H;
        injection H as <-; (split; [|discriminate]).
      * apply strcmp_val_eq_iff in E. now subst q.
      * exact Self.
    + injection H as <-. split; [reflexivity | discriminate].
  - injection H as <-. split; [exact Self | discriminate].
Qed.

Lemma unpack_parent_frame_closed a e e' w :
  physical_data e = Some w ->
  unpack_parent_frame a e = Ok e' ->
  e' = with_working
         (set_parent_frame
            (frame_after (is_received (parent_frame_attr a)) (parent_frame w)
               (parent_frame (pe_packing_data e))) w) e /\
  (is_received (parent_frame_attr a) = true ->
   parent_frame (pe_packing_data e) <> None).
Proof.
  intros Hd H. unfold unpack_parent_frame in H.
  assert (Self : e = with_working (set_parent_frame (parent_frame w) w) e).
  { symmetry. destruct w; cbn. now apply with_working_self. }
  unfold frame_after, starts_with_byte.
  destruct (is_received (parent_frame_attr a)).
  - rewrite Hd in H. cbn in H.
    destruct (parent_frame (pe_packing_data e)) as [q|];
      [|destruct (parent_frame w); cbn in H; discriminate].
    destruct (parent_frame w) as [s|] eqn:Hw; cbn in H.
    + rewrite strcmp_zero_eqb in H.
      destruct (String.eqb s q); cbn in H.
      * destruct q as [|c q]; cbn in H;
          [|destruct (Ascii.eqb c NUL); cbn in H];
          injection H as <-; (split; [reflexivity | discriminate]).
      * injection H as <-. split; [exact Self | discriminate].
    + destruct q as [|c q]; cbn in H;
        [|destruct (Ascii.eqb c NUL); cbn in H];
        injection H as <-;
        (split; [first [exact Self | reflexivity] | discriminate]).
  - injection H as <-. split; [exact Self | discriminate].
Qed.

Lemma set_name_law d : set_name (name d) d = d.
Proof. now destruct d. Qed.
Lemma set_type_law d : set_type (type d) d = d.
Proof. now destruct d. Qed.
Lemma set_status_law d : set_status (status d) d = d.
Proof. now destruct d. Qed.

Ltac string_step H law V :=
  match type of H with
  | unpack_string ?attr ?get ?set ?a (with_working ?w1 ?e) = Ok ?e2 =>
      destruct (unpack_string_closed attr get set a (with_working w1 e) e2 w1
                  law eq_refl H) as (-> & V);
      cbn [pe_packing_data with_working] in V
  end.

(** A completed unpack on bound working data, as one equation; the strings
    of the received string attributes were present. *)
Lemma unpack_closed_form a e e' w :
  physical_data e = Some w ->
  unpack_into_working_data a e = Ok e' ->
  e' = with_working (unpacked a (pe_packing_data e) w) e /\
  received_strings_present a (pe_packing_data e).
Proof.
  intros Hd H.
  destruct (unpack_steps a e e' H)
    as (e1 & e2 & e3 & e4 & e5 & H1 & H2 & H3 & H4 & H5 & H6).
  rewrite (unpack_state_closed a e w Hd) in H1. injection H1 as <-.
  string_step H2 set_name_law Vn. rewrite with_working_twice in H3.
  string_step H3 set_type_law Vt. rewrite with_working_twice in H4.
  string_step H4 set_status_law Vs. rewrite with_working_twice in H5.
  match type of H5 with
  | unpack_parent_frame _ (with_working ?w4 _) = _ =>
      destruct (unpack_parent_frame_closed a (with_working w4 e) e5 w4 eq_refl H5)
        as (-> & Vf);
      cbn [pe_packing_data with_working] in Vf
  end.
  rewrite with_working_twice in H6.
  match type of H6 with
  | unpack_body_frame _ (with_working ?w5 _) = _ =>
      rewrite (unpack_body_frame_closed a (with_working w5 e) w5 eq_refl) in H6
  end.
  injection H6 as <-. rewrite with_working_twice. split.
  - destruct w; reflexivity.
  - repeat split; assumption.
Qed.

(** Without working data the unpack can only complete by doing nothing. *)
Lemma unpack_unbound a e e' :
  physical_data e = None ->
  unpack_into_working_data a e = Ok e' ->
  e' = e /\ none_received a.
Proof.
  intros Hd H. unfold none_received.
  unfold unpack_into_working_data, unpack_state, unpack_string,
    unpack_parent_frame, unpack_body_frame in H.
  destruct (is_received (state_attr a));
    [rewrite Hd in H; discriminate|]. cbn in H.
  destruct (is_received (name_attr a));
    [rewrite Hd in H; discriminate|]. cbn in H.
  destruct (is_received (type_attr a));
    [rewrite Hd in H; discriminate|]. cbn in H.
  destruct (is_received (status_attr a));
    [rewrite Hd in H; discriminate|]. cbn in H.
  destruct (is_received (parent_frame_attr a));
    [rewrite Hd in H; discriminate|]. cbn in H.
  destruct (is_received (body_frame_attr a));
    [rewrite Hd in H; discriminate|]. cbn in H.
  injection H as <-. repeat split.
Qed.

Lemma string_after_idem r ws ps :
  string_after r (string_after r ws ps) ps = string_after r ws ps.
Proof. destruct r, ws, ps; reflexivity. Qed.

Lemma frame_after_idem r ws ps :
  frame_after r (frame_after r ws ps) ps = frame_after r ws ps.
Proof.
  unfold frame_after.
  destruct r, ws as [s|], ps as [q|]; try reflexivity.
  - destruct (String.eqb s q) eqn:E.
    + destruct (starts_with_byte q) eqn:B; [|reflexivity].
      now rewrite String.eqb_refl.
    + now rewrite E.
  - destruct (starts_with_byte q) eqn:B; [|reflexivity].
    now rewrite String.eqb_refl.
Qed.

Lemma unpacked_idem a p w : unpacked a p (unpacked a p w) = unpacked a p w.
Proof.
  unfold unpacked. cbn.
  rewrite !string_after_idem, frame_after_idem.
  now destruct (is_received (state_attr a)), (is_received (body_frame_attr a)).
Qed.

(** X5.  When none of the six attributes was received the unpack returns
    the entity as it is; this holds even for an entity whose working data
    pointer is NULL, which is then never dereferenced. *)
Theorem unpack_without_reception_is_identity :
  forall (a : Attributes) (e : entity),
    none_received a -> unpack_into_working_data a e = Ok e.
Proof.
  intros a e (Rs & Rn & Rt & Ru & Rf & Rb).
  unfold unpack_into_working_data, unpack_state, unpack_string,
    unpack_parent_frame, unpack_body_frame.
  rewrite Rs. cbn. rewrite Rn. cbn. rewrite Rt. cbn. rewrite Ru. cbn.
  rewrite Rf. cbn. now rewrite Rb.
Qed.

Lemma unpack_without_reception_is_identity_witness :
  none_received (Sample.all_attrs Sample.quiet) /\
  unpack_into_working_data (Sample.all_attrs Sample.quiet) Sample2.unbound_entity
  = Ok Sample2.unbound_entity.
Proof.
  assert (N : none_received (Sample.all_attrs Sample.quiet)) by (repeat split).
  split; [exact N|].
  exact (unpack_without_reception_is_identity _ Sample2.unbound_entity N).
Defined.

(** X6.  The unpack never writes the packing record: whenever it completes,
    [pe_packing_data] is what it was, and an entity without working data
    is returned unchanged. *)
Theorem unpack_never_writes_packing_record :
  forall (a : Attributes) (e e' : entity),
    unpack_into_working_data a e = Ok e' ->
    pe_packing_data e' = pe_packing_data e /\
    (physical_data e = None -> e' = e).
Proof.
  intros a e e' H. destruct (physical_data e) as [w|] eqn:Hd.
  - destruct (unpack_closed_form a e e' w Hd H) as (-> & _).
    split; [reflexivity | discriminate].
  - destruct (unpack_unbound a e e' Hd H) as (-> & _). split; reflexivity.
Qed.

Lemma unpack_never_writes_packing_record_witness :
  exists e',
    unpack_into_working_data Sample.everything Sample.remote_entity = Ok e' /\
    pe_packing_data e' = Sample.incoming.
Proof.
  assert (H : exists e', unpack_into_working_data Sample.everything
                           Sample.remote_entity = Ok e')
    by (eexists; vm_compute; reflexivity).
  destruct H as (e' & H). exists e'. split; [exact H|].
  exact (proj1 (unpack_never_writes_packing_record
                  Sample.everything Sample.remote_entity e' H)).
Defined.

(** X7.  A name, type or status that the working data holds before the
    unpack has the same value after it, whatever was received.  A parent
    frame held before is either kept, or cleared to NULL, the latter only
    when the frame was received, equals the working one and starts with
    NUL (is empty). *)
Theorem unpack_keeps_bound_strings :
  forall (a : Attributes) (e e' : entity) (w : PhysicalEntityData),
    physical_data e = Some w ->
    unpack_into_working_data a e = Ok e' ->
    exists w',
      physical_data e' = Some w' /\
      (forall s, name w = Some s -> name w' = Some s) /\
      (forall s, type w = Some s -> type w' = Some s) /\
      (forall s, status w = Some s -> status w' = Some s) /\
      (forall s, parent_frame w = Some s ->
                 parent_frame w' = Some s \/
                 (parent_frame w' = None /\
                  is_received (parent_frame_attr a) = true /\
                  parent_frame (pe_packing_data e) = Some s /\
                  starts_with_byte s = false)).
Proof.
  intros a e e' w Hd H.
  destruct (unpack_closed_form a e e' w Hd H) as (-> & _).
  eexists. split; [reflexivity|]. cbn. unfold string_after, frame_after.
  repeat split; intros s Hs; rewrite Hs.
  - now destruct (is_received (name_attr a)).
  - now destruct (is_received (type_attr a)).
  - now destruct (is_received (status_attr a)).
  - destruct (is_received (parent_frame_attr a)); [|now left].
    destruct (parent_frame (pe_packing_data e)) as [q|]; [|now left].
    destruct (String.eqb_spec s q) as [<-|]; [|now left].
    destruct (starts_with_byte s) eqn:B; [now left|]. right. auto.
Qed.

Lemma unpack_keeps_bound_strings_witness :
  exists e' w',
    unpack_into_working_data Sample.everything Sample.remote_entity = Ok e' /\
    physical_data e' = Some w' /\
    name w' = Some "Lander" /\ type w' = Some "Vehicle" /\
    status w' = Some "Active".
Proof.
  assert (H : exists e', unpack_into_working_data Sample.everything
                           Sample.remote_entity = Ok e')
    by (eexists; vm_compute; reflexivity).
  destruct H as (e' & H).
  destruct (unpack_keeps_bound_strings Sample.everything Sample.remote_entity
              e' Sample.working eq_refl H) as (w' & D & Kn & Kt & Ks & _).
  exists e', w'. split; [exact H|]. split; [exact D|].
  split; [apply Kn; reflexivity|]. split; [apply Kt | apply Ks]; reflexivity.
Defined.

(** X8.  A name, type or status that is NULL in the working data and whose
    attribute was received is set to the packed string, which is then not
    NULL.  A NULL parent frame whose attribute was received is set to the
    packed frame when that one does not start with NUL, and stays NULL when
    it does. *)
Theorem unpack_fills_unbound_strings :
  forall (a : Attributes) (e e' : entity) (w : PhysicalEntityData),
    physical_data e = Some w ->
    unpack_into_working_data a e = Ok e' ->
    exists w',
      physical_data e' = Some w' /\
      (is_received (name_attr a) = true -> name w = None ->
       name w' = name (pe_packing_data e) /\ name w' <> None) /\
      (is_received (type_attr a) = true -> type w = None ->
       type w' = type (pe_packing_data e) /\ type w' <> None) /\
      (is_received (status_attr a) = true -> status w = None ->
       status w' = status (pe_packing_data e) /\ status w' <> None) /\
      (is_received (parent_frame_attr a) = true -> parent_frame w = None ->
       exists q, parent_frame (pe_packing_data e) = Some q /\
                 parent_frame w' = if starts_with_byte q then Some q else None).
Proof.
  intros a e e' w Hd H.
  destruct (unpack_closed_form a e e' w Hd H) as (-> & Vn & Vt & Vs & Vf).
  eexists. split; [reflexivity|]. cbn. unfold string_after, frame_after.
  split; [|split; [|split]].
  - intros R Hw. rewrite R, Hw. split; [reflexivity | exact (Vn R)].
  - intros R Hw. rewrite R, Hw. split; [reflexivity | exact (Vt R)].
  - intros R Hw. rewrite R, Hw. split; [reflexivity | exact (Vs R)].
  - intros R Hw. rewrite R, Hw.
    destruct (parent_frame (pe_packing_data e)) as [q|]; [|now destruct (Vf R)].
    now exists q.
Qed.

Lemma unpack_fills_unbound_strings_witness :
  exists e' w',
    unpack_into_working_data Sample2.type_and_status Sample2.untyped_remote = Ok e' /\
    physical_data e' = Some w' /\
    type w' = Some EmptyString /\ status w' = Some EmptyString.
Proof.
  assert (H : exists e', unpack_into_working_data Sample2.type_and_status
                           Sample2.untyped_remote = Ok e')
    by (eexists; vm_compute; reflexivity).
  destruct H as (e' & H).
  destruct (unpack_fills_unbound_strings Sample2.type_and_status
              Sample2.untyped_remote e' Sample2.untyped eq_refl H)
    as (w' & D & _ & Kt & Ks & _).
  exists e', w'. split; [exact H|]. split; [exact D|].
  split; [exact (proj1 (Kt eq_refl eq_refl)) | exact (proj1 (Ks eq_refl eq_refl))].
Defined.

(** X9.  An empty working parent frame does not survive a pack followed by
    an unpack in which the parent frame is received: the unpack finds the
    two frames equal, releases the working one and, the packed one being
    empty, leaves NULL.  The next pack then ends the run on the NULL parent
    frame. *)
Theorem empty_parent_frame_is_lost_and_next_pack_terminates :
  forall (t : double) (a : Attributes) (e : entity) (w : PhysicalEntityData),
    physical_data e = Some w ->
    name w <> None ->
    parent_frame w = Some EmptyString ->
    packing_ready (pe_packing_data e) ->
    is_received (parent_frame_attr a) = true ->
    (is_received (type_attr a) = true -> type w <> None) ->
    (is_received (status_attr a) = true -> status w <> None) ->
    exists e1 e2 w2,
      pack_from_working_data t e = Ok e1 /\
      unpack_into_working_data a e1 = Ok e2 /\
      physical_data e2 = Some w2 /\
      parent_frame w2 = None /\
      forall t', pack_from_working_data t' e2 = Terminated msg_null_frame.
Proof.
  intros t a e w Hd Hn Hf R Rf Vt Vs.
  assert (Hf' : parent_frame w <> None) by congruence.
  pose proof (pack_from_working_data_ok t e w Hd Hn Hf' R) as Hpack.
  set (e1 := with_packing (packed_image t w) e) in *.
  assert (Hd1 : physical_data e1 = Some w) by exact Hd.
  assert (V : received_strings_present a (pe_packing_data e1))
    by (unfold received_strings_present; cbn; auto).
  destruct (unpack_into_working_data_total a e1 w Hd1 V) as (w2 & Hun).
  destruct (unpack_closed_form a e1 _ w Hd1 Hun) as (E & _).
  assert (Ew : w2 = unpacked a (packed_image t w) w).
  { apply (f_equal physical_data) in E. cbn in E. congruence. }
  exists e1, (with_working w2 e1), w2.
  split; [exact Hpack|]. split; [exact Hun|]. split; [reflexivity|].
  assert (Pf : parent_frame w2 = None).
  { rewrite Ew. cbn. unfold frame_after. now rewrite Rf, Hf. }
  split; [exact Pf|].
  intros t'. rewrite pack_closed_form. cbn. rewrite Pf.
  assert (Nm : name w2 = name w).
  { rewrite Ew. cbn. unfold string_after.
    destruct (is_received (name_attr a)); [|reflexivity].
    now destruct (name w). }
  rewrite Nm. now destruct (name w).
Qed.

Lemma empty_parent_frame_is_lost_and_next_pack_terminates_witness :
  physical_data Sample2.unframed_entity = Some Sample2.unframed /\
  parent_frame Sample2.unframed = Some EmptyString /\
  exists e1 e2 w2,
    pack_from_working_data 200%float Sample2.unframed_entity = Ok e1 /\
    unpack_into_working_data Sample.frame_only e1 = Ok e2 /\
    physical_data e2 = Some w2 /\
    parent_frame w2 = None /\
    forall t', pack_from_working_data t' e2 = Terminated msg_null_frame.
Proof.
  split; [reflexivity|]. split; [reflexivity|].
  apply (empty_parent_frame_is_lost_and_next_pack_terminates
           200%float Sample.frame_only Sample2.unframed_entity Sample2.unframed).
  - reflexivity.
  - discriminate.
  - reflexivity.
  - split; discriminate.
  - reflexivity.
  - discriminate.
  - discriminate.
Defined.

(** X10.  Unpacking the same packing record a second time changes nothing:
    a completed unpack, run again on its own result with the same
    attributes, completes and returns that result. *)
Theorem unpack_is_idempotent :
  forall (a : Attributes) (e e' : entity),
    unpack_into_working_data a e = Ok e' ->
    unpack_into_working_data a e' = Ok e'.
Proof.
  intros a e e' H. destruct (physical_data e) as [w|] eqn:Hd.
  - destruct (unpack_closed_form a e e' w Hd H) as (-> & V).
    set (w1 := unpacked a (pe_packing_data e) w).
    destruct (unpack_into_working_data_total a (with_working w1 e) w1 eq_refl V)
      as (w2 & H2).
    rewrite H2. f_equal.
    destruct (unpack_closed_form a (with_working w1 e) _ w1 eq_refl H2) as (E & _).
    rewrite E. cbn. unfold w1. now rewrite unpacked_idem.
  - destruct (unpack_unbound a e e' Hd H) as (-> & _). exact H.
Qed.

Lemma unpack_is_idempotent_witness :
  exists e',
    unpack_into_working_data Sample.everything Sample2.untyped_remote = Ok e' /\
    unpack_into_working_data Sample.everything e' = Ok e'.
Proof.
  eexists. split; [vm_compute; reflexivity|].
  apply (unpack_is_idempotent Sample.everything Sample2.untyped_remote).
  vm_compute. reflexivity.
Defined.

(** X11.  [initialize( ptr )] with a NULL pointer ends the run even when
    the entity already had working data; with a non-NULL pointer it never
    reports missing data, even for an entity that had none: the pointer is
    installed first, and the base class initialisation gets the entity
    bound to it, packing record unchanged.  [initialize()] alone ends the
    run on an entity without working data. *)
Theorem initialize_requires_working_data :
  forall (base : entity -> outcome entity) (e : entity),
    initialize_with base None e = Terminated msg_null_data /\
    (forall d, initialize_with base (Some d) e
               = base (mkEntity (Some d) (pe_packing_data e))) /\
    (physical_data e = None -> initialize base e = Terminated msg_null_data) /\
    (forall ptr, completes (initialize_with base ptr e) -> ptr <> None).
Proof.
  intros base e. repeat split.
  - intros Hd. unfold initialize. now rewrite Hd.
  - intros ptr (e' & H) ->. discriminate.
Qed.

Lemma initialize_requires_working_data_witness :
  initialize (fun e => Ok e) Sample2.unbound_entity = Terminated msg_null_data /\
  initialize_with (fun e => Ok e) (Some Sample.working) Sample2.unbound_entity
  = Ok Sample.remote_entity.
Proof.
  destruct (initialize_requires_working_data (fun e => Ok e) Sample2.unbound_entity)
    as (_ & K & N & _).
  split; [exact (N eq_refl) | exact (K Sample.working)].
Defined.

End PhysicalEntityMore.

(* ================================================================== *)
(** * Further properties of the integrator configuration check         *)
(* ================================================================== *)

Lemma SFcompare_refl_cases (x : SpecFloat.spec_float) :
  SpecFloat.SFcompare x x = Some Eq \/ x = SpecFloat.S754_nan.
Proof.
  assert (R : forall a, PosDef.Pos.compare_cont Eq a a = Eq)
    by (intros a; apply Pos.compare_refl).
  destruct x as [s|s| |s m e]; cbn; auto.
  - left. now destruct s.
  - left. destruct s; now rewrite Z.compare_refl, R.
Qed.

Lemma is_nan_Prim2SF (x : double) :
  PrimFloat.is_nan x = true -> Prim2SF x = SpecFloat.S754_nan.
Proof.
  unfold PrimFloat.is_nan. rewrite FloatAxioms.eqb_spec. unfold SpecFloat.SFeqb.
  destruct (SFcompare_refl_cases (Prim2SF x)) as [E|E]; [|trivial].
  rewrite E. discriminate.
Qed.

Lemma ltb_nan (x y : double) :
  PrimFloat.is_nan x = true \/ PrimFloat.is_nan y = true ->
  PrimFloat.ltb x y = false.
Proof.
  intros H. rewrite ltb_spec. unfold SpecFloat.SFltb.
  destruct H as [H|H]; apply is_nan_Prim2SF in H; rewrite H.
  - reflexivity.
  - now destruct (Prim2SF x).
Qed.

(** X12.  A tolerance strictly below the step always passes the check of
    [initialize]: the outcome is the one of the base class initialisation. *)
Theorem smaller_tolerance_passes_the_check :
  forall (Obj : Type) (base : Obj -> outcome Obj)
         (integ_dt integ_tol : double) (o : Obj),
    PrimFloat.ltb integ_tol integ_dt = true ->
    PhysicalEntityLagCompInteg.initialize Obj base integ_dt integ_tol o = base o.
Proof.
  intros Obj base dt tol o H. unfold PhysicalEntityLagCompInteg.initialize.
  now rewrite (ltb_asym _ _ H).
Qed.

Lemma smaller_tolerance_passes_the_check_witness :
  PrimFloat.ltb 0.0625%float 0.5%float = true /\
  PhysicalEntityLagCompInteg.initialize nat (fun o => Ok (S o))
    0.5%float 0.0625%float 0 = Ok 1.
Proof.
  split; [reflexivity|].
  exact (smaller_tolerance_passes_the_check nat (fun o => Ok (S o))
           0.5%float 0.0625%float 0 eq_refl).
Defined.

(** X13.  A step or a tolerance that is not a number is not rejected: the
    comparison [integ_dt < integ_tol] is false as soon as one side is NaN,
    so the run goes on to the base class initialisation. *)
Theorem nan_configuration_passes_the_check :
  forall (Obj : Type) (base : Obj -> outcome Obj)
         (integ_dt integ_tol : double) (o : Obj),
    PrimFloat.is_nan integ_dt = true \/ PrimFloat.is_nan integ_tol = true ->
    PhysicalEntityLagCompInteg.initialize Obj base integ_dt integ_tol o = base o.
Proof.
  intros Obj base dt tol o H. unfold PhysicalEntityLagCompInteg.initialize.
  now rewrite (ltb_nan _ _ H).
Qed.

Lemma nan_configuration_passes_the_check_witness :
  PrimFloat.is_nan PrimFloat.nan = true /\
  PhysicalEntityLagCompInteg.initialize nat (fun o => Ok (S o))
    0.5%float PrimFloat.nan 0 = Ok 1.
Proof.
  split; [reflexivity|].
  exact (nan_configuration_passes_the_check nat (fun o => Ok (S o))
           0.5%float PrimFloat.nan 0 (or_intror eq_refl)).
Defined.

(* ================================================================== *)
(** * Further properties of the send and receive lag compensation      *)
(* ================================================================== *)

Section LagCompMore.

Import DynamicalEntityLagCompBase.
Local Open Scope list_scope.

Variable Entity : Type.
Context {EntityOps : DynamicalEntityBase Entity}.
Variable Base : Type.
Variable base_load_lag_comp_data : Entity -> Base -> Base.
Variable base_unload_lag_comp_data : Base -> Entity -> Entity.
Variable derivative_first : Base -> Base.
Variable compensate : double -> double -> lagcomp Base -> lagcomp Base.
Variable dm_invert_symm : mat33 -> mat33 -> Z * mat33.
Variable TM_SUCCESS : Z.

Local Abbreviation load := (load_lag_comp_data Entity Base base_load_lag_comp_data).
Local Abbreviation unload := (unload_lag_comp_data Entity Base base_unload_lag_comp_data).
Local Abbreviation state_part :=
  (receive_state_part Entity Base base_load_lag_comp_data derivative_first compensate).
Local Abbreviation invert := (invert_received_inertia Entity Base dm_invert_symm TM_SUCCESS).
Local Abbreviation compensated :=
  (receive_compensated Entity Base base_load_lag_comp_data derivative_first compensate
     dm_invert_symm TM_SUCCESS).
Local Abbreviation receive :=
  (receive_lag_compensation Entity Base base_load_lag_comp_data base_unload_lag_comp_data
     derivative_first compensate dm_invert_symm TM_SUCCESS).
Local Abbreviation send :=
  (send_lag_compensation Entity Base base_load_lag_comp_data base_unload_lag_comp_data
     derivative_first compensate).
Local Abbreviation world := (world Entity Base).
Local Abbreviation mkWorld := (mkWorld Entity Base).
Local Abbreviation attrs := (attrs Entity Base).
Local Abbreviation entity := (entity Entity Base).
Local Abbreviation lc := (lc Entity Base).
Local Abbreviation calls := (calls Entity Base).
Local Abbreviation lagcomp := (lagcomp Base).

(** The dynamical members of a compensator, as a packing record. *)
Local Abbreviation members l :=
  (DynamicalEntityData.mk (force Base l) (torque Base l) (mass Base l)
     (mass_rate Base l) (inertia Base l) (inertia_rate Base l)).

(** The unload overwrites the whole dynamical packing data: nothing of
    what the entity held there is read. *)
Lemma unload_lag_comp_data_spec (l : lagcomp) (e : Entity) :
  unload l e
  = set_de_packing_data (members l) (base_unload_lag_comp_data (base Base l) e).
Proof.
  unfold unload_lag_comp_data. cbv zeta. f_equal.
  destruct (de_packing_data (base_unload_lag_comp_data (base Base l) e))
    as [[? ? ?] [? ? ?] ? ? [[? ? ?] [? ? ?] [? ? ?]] [[? ? ?] [? ? ?] [? ? ?]]].
  destruct l as [b dt [? ? ?] [? ? ?] ? ? [[? ? ?] [? ? ?] [? ? ?]]
                   [[? ? ?] [? ? ?] [? ? ?]] inv].
  reflexivity.
Qed.

(** The unload reads neither the time step nor the inverse. *)
Lemma unload_ignores_step_and_inverse (l l' : lagcomp) (e : Entity) :
  set_inertia_inv Base (inertia_inv Base l)
    (set_compensate_dt Base (compensate_dt Base l) l') = l ->
  unload l' e = unload l e.
Proof.
  intros <-. rewrite !unload_lag_comp_data_spec. now destruct l'.
Qed.

(** X14.  For an entity whose dynamical packing data can be read back
    after being written: the unload writes the six dynamical members of the
    compensator (force, torque, mass, mass rate and all nine entries of the
    inertia and of its rate) into [de_packing_data]; a load after an unload
    gets them back, leaving the time step and the inverse of the inertia of
    the loading compensator alone; and an unload after a load restores the
    dynamical packing data that was loaded. *)
Theorem unload_and_load_round_trip :
  (forall d e, de_packing_data (set_de_packing_data d e) = d) ->
  forall (l l' : lagcomp) (e e' : Entity),
    de_packing_data (unload l e) = members l /\
    members (load (unload l e) l') = members l /\
    inertia_inv Base (load (unload l e) l') = inertia_inv Base l' /\
    compensate_dt Base (load (unload l e) l') = compensate_dt Base l' /\
    de_packing_data (unload (load e l) e') = de_packing_data e.
Proof.
  intros GetSet l l' e e'.
  assert (U : forall k x, de_packing_data (unload k x) = members k)
    by (intros k x; now rewrite unload_lag_comp_data_spec, GetSet).
  split; [|split; [|split; [|split]]].
  - apply U.
  - rewrite load_lag_comp_data_spec. cbn. rewrite U. now destruct l.
  - rewrite load_lag_comp_data_spec. reflexivity.
  - rewrite load_lag_comp_data_spec. reflexivity.
  - rewrite U, load_lag_comp_data_spec. cbn. now destruct (de_packing_data e).
Qed.

(** X15.  In a receive where the state attribute was not received, the
    dynamical packing data handed to the unpack of the entity is the
    compensator's own data from before the job, whatever the packing
    record held on entry: the unload is run all the same, on a compensator
    that was not loaded. *)
Theorem receive_without_state_writes_back_old_data :
  (forall d e, de_packing_data (set_de_packing_data d e) = d) ->
  forall (env : exec_env) (w : world),
    is_received (state_attr (attrs w)) = false ->
    let handed := unload (lc w) (entity w) in
    de_packing_data handed = members (lc w) /\
    receive env w =
    (e <- unpack_into_working_data (attrs w) handed ;;
     ret (mkWorld (attrs w) e (lc (compensated env w)) (calls (compensated env w)))).
Proof.
  intros GetSet env w R handed. split.
  - unfold handed. now rewrite unload_lag_comp_data_spec, GetSet.
  - rewrite (receive_unfold Entity Base). unfold handed.
    rewrite (unload_ignores_step_and_inverse (lc w) (lc (compensated env w)));
      [reflexivity|].
    unfold receive_compensated.
    pose proof (invert_keeps_compensated_data Entity Base dm_invert_symm TM_SUCCESS
                  (state_part env w)) as K.
    rewrite (state_part_not_received Entity Base _ _ _ env w R) in K |- *.
    cbn [DynamicalEntityLagCompBase.lc] in K.
    destruct (lc (invert _)). destruct (lc w).
    unfold DynamicalEntityLagCompBase.set_inertia_inv,
      DynamicalEntityLagCompBase.set_compensate_dt in *.
    cbn in *. congruence.
Qed.

(** X16.  In a receive where the inertia attribute was received and the
    state attribute was not, the matrix handed to the inversion is the
    inertia the compensator held before the job, not the one in the packing
    record; the inverse kept is the routine's result on success and the
    zero matrix otherwise, with one report in the latter case only. *)
Theorem inertia_without_state_inverts_old_inertia :
  forall (env : exec_env) (w : world),
    is_received (state_attr (attrs w)) = false ->
    is_received (inertia_attr (attrs w)) = true ->
    let r := dm_invert_symm (inertia_inv Base (lc w)) (inertia Base (lc w)) in
    let ok := (fst r =? TM_SUCCESS)%Z in
    calls (compensated env w)
    = calls w ++ InvertSymm (inertia Base (lc w))
              :: (if ok then [] else [SendHs msg_singular]) /\
    inertia_inv Base (lc (compensated env w))
    = (if ok then snd r else M_INIT (snd r)).
Proof.
  intros env w Rs Ri r ok. unfold receive_compensated.
  rewrite (state_part_not_received Entity Base _ _ _ env w Rs).
  subst ok. destruct (Z.eqb_spec (fst r) TM_SUCCESS) as [E|E].
  - rewrite (invert_success Entity Base dm_invert_symm TM_SUCCESS); [|exact Ri|exact E].
    split; reflexivity.
  - rewrite (invert_failure Entity Base dm_invert_symm TM_SUCCESS); [|exact Ri|exact E].
    split; reflexivity.
Qed.

(** X17.  When the inertia attribute was received and the inversion
    succeeds, the inverse kept by the compensator is the matrix the routine
    produced, nothing is reported, and no other member of the compensator
    is written by the inertia branch. *)
Theorem successful_inversion_is_kept :
  forall (env : exec_env) (w : world),
    let w1 := state_part env w in
    let w2 := compensated env w in
    let r := dm_invert_symm (inertia_inv Base (lc w1)) (inertia Base (lc w1)) in
    is_received (inertia_attr (attrs w)) = true ->
    fst r = TM_SUCCESS ->
    inertia_inv Base (lc w2) = snd r /\
    calls w2 = calls w1 ++ [InvertSymm (inertia Base (lc w1))] /\
    set_inertia_inv Base (inertia_inv Base (lc w1)) (lc w2) = lc w1.
Proof.
  intros env w w1 w2 r R E.
  assert (A1 : attrs w1 = attrs w) by apply state_part_attrs.
  rewrite <- A1 in R.
  assert (E2 : w2 = invert w1) by reflexivity.
  split; [|split].
  - rewrite E2, (invert_success Entity Base dm_invert_symm TM_SUCCESS w1 R E).
    reflexivity.
  - rewrite E2, (invert_success Entity Base dm_invert_symm TM_SUCCESS w1 R E).
    reflexivity.
  - rewrite E2. apply invert_keeps_compensated_data.
Qed.

(** X18.  The send never inverts the inertia: what it hands to
    [compensate] carries the dynamical data just packed by the entity, the
    lookahead as time step, and the inverse of the inertia left by the
    receive jobs before it. *)
Theorem send_compensates_with_old_inverse :
  forall (env : exec_env) (w w' : world),
    send env w = Ok w' ->
    exists (e1 : Entity) (given : lagcomp),
      pack_from_working_data (scenario_time env) (entity w) = Ok e1 /\
      lc w' = compensate (scenario_time env)
                (scenario_time env + lookahead env)%float given /\
      members given = de_packing_data e1 /\
      compensate_dt Base given = lookahead env /\
      inertia_inv Base given = inertia_inv Base (lc w) /\
      filter is_invert (calls w') = filter is_invert (calls w).
Proof.
  intros env w w' H.
  destruct (pack_from_working_data (scenario_time env) (entity w)) as [e1| |] eqn:P;
    try (unfold send_lag_compensation in H; cbn in H; rewrite P in H; discriminate).
  rewrite (send_unfold Entity Base _ _ _ _ env w e1 P) in H. injection H as <-.
  eexists. eexists. split; [reflexivity|]. split; [reflexivity|].
  rewrite load_lag_comp_data_spec. cbn.
  split; [now destruct (de_packing_data e1)|].
  split; [reflexivity|]. split; [reflexivity|].
  rewrite filter_app. cbn. now rewrite app_nil_r.
Qed.

End LagCompMore.

Lemma unload_and_load_round_trip_witness :
  (forall d e, @de_packing_data Sample.probe Sample.probe_entity
                 (@set_de_packing_data Sample.probe Sample.probe_entity d e) = d) /\
  @de_packing_data Sample.probe Sample.probe_entity
    (Sample2.unload0
       (Sample2.load0
          (DynamicalEntityLagCompBase.entity _ _ Sample2.inertia_alone)
          (DynamicalEntityLagCompBase.lc _ _ Sample2.inertia_alone))
       (DynamicalEntityLagCompBase.entity _ _ Sample.receiving))
  = Sample.dynamics Sample.singular33.
Proof.
  assert (G : forall d e, @de_packing_data Sample.probe Sample.probe_entity
                 (@set_de_packing_data Sample.probe Sample.probe_entity d e) = d)
    by reflexivity.
  split; [exact G|].
  exact (proj2 (proj2 (proj2 (proj2
           (@unload_and_load_round_trip Sample.probe Sample.probe_entity
              SpaceTimeCoordinateData Sample.probe_load Sample.probe_unload G
              (DynamicalEntityLagCompBase.lc _ _ Sample2.inertia_alone)
              (DynamicalEntityLagCompBase.lc _ _ Sample2.inertia_alone)
              (DynamicalEntityLagCompBase.entity _ _ Sample2.inertia_alone)
              (DynamicalEntityLagCompBase.entity _ _ Sample.receiving)))))).
Defined.

Lemma receive_without_state_writes_back_old_data_witness :
  is_received (state_attr
                 (DynamicalEntityLagCompBase.attrs _ _ Sample2.inertia_alone)) = false /\
  DynamicalEntityData.inertia
    (@de_packing_data Sample.probe Sample.probe_entity
       (DynamicalEntityLagCompBase.entity _ _ Sample2.inertia_alone))
  = Sample.singular33 /\
  DynamicalEntityData.inertia
    (@de_packing_data Sample.probe Sample.probe_entity
       (Sample2.unload0
          (DynamicalEntityLagCompBase.lc _ _ Sample2.inertia_alone)
          (DynamicalEntityLagCompBase.entity _ _ Sample2.inertia_alone)))
  = Sample.identity33.
Proof.
  split; [reflexivity|]. split; [reflexivity|].
  assert (G : forall d e, @de_packing_data Sample.probe Sample.probe_entity
                 (@set_de_packing_data Sample.probe Sample.probe_entity d e) = d)
    by reflexivity.
  pose proof (proj1 (@receive_without_state_writes_back_old_data
                       Sample.probe Sample.probe_entity SpaceTimeCoordinateData
                       Sample.probe_load Sample.probe_unload Sample.probe_derivative
                       Sample.drift Sample.invert_symm 0%Z G
                       Sample.env0 Sample2.inertia_alone eq_refl)) as K.
  exact (f_equal DynamicalEntityData.inertia K).
Defined.

Lemma inertia_without_state_inverts_old_inertia_witness :
  is_received (state_attr
                 (DynamicalEntityLagCompBase.attrs _ _ Sample2.inertia_alone)) = false /\
  is_received (inertia_attr
                 (DynamicalEntityLagCompBase.attrs _ _ Sample2.inertia_alone)) = true /\
  DynamicalEntityLagCompBase.calls _ _
    (Sample.compensated0 Sample.env0 Sample2.inertia_alone)
  = [DynamicalEntityLagCompBase.InvertSymm Sample.identity33].
Proof.
  split; [reflexivity|]. split; [reflexivity|].
  exact (proj1 (@inertia_without_state_inverts_old_inertia
                  Sample.probe Sample.probe_entity SpaceTimeCoordinateData
                  Sample.probe_load Sample.probe_derivative
                  Sample.drift Sample.invert_symm 0%Z
                  Sample.env0 Sample2.inertia_alone eq_refl eq_refl)).
Defined.

Lemma successful_inversion_is_kept_witness :
  is_received (inertia_attr
                 (DynamicalEntityLagCompBase.attrs _ _ Sample2.regular)) = true /\
  DynamicalEntityLagCompBase.inertia_inv _
    (DynamicalEntityLagCompBase.lc _ _
       (Sample.compensated0 Sample.env0 Sample2.regular))
  = Sample.identity33.
Proof.
  split; [reflexivity|].
  exact (proj1 (@successful_inversion_is_kept
                  Sample.probe Sample.probe_entity SpaceTimeCoordinateData
                  Sample.probe_load Sample.probe_derivative
                  Sample.drift Sample.invert_symm 0%Z
                  Sample.env0 Sample2.regular eq_refl eq_refl)).
Defined.

Lemma send_compensates_with_old_inverse_witness :
  exists w' e1 given,
    Sample.send0 Sample.env0 Sample.sending = Ok w' /\
    @pack_from_working_data Sample.probe Sample.probe_entity 260%float
      (DynamicalEntityLagCompBase.entity _ _ Sample.sending) = Ok e1 /\
    DynamicalEntityLagCompBase.lc _ _ w'
    = Sample.drift 260%float 260.5%float given /\
    DynamicalEntityLagCompBase.inertia_inv _ given = Sample.identity33.
Proof.
  assert (H : exists w', Sample.send0 Sample.env0 Sample.sending = Ok w')
    by (eexists; vm_compute; reflexivity).
  destruct H as (w' & H).
  destruct (@send_compensates_with_old_inverse
              Sample.probe Sample.probe_entity SpaceTimeCoordinateData
              Sample.probe_load Sample.probe_unload Sample.probe_derivative
              Sample.drift Sample.env0 Sample.sending w' H)
    as (e1 & given & P & L & _ & _ & I & _).
  exists w', e1, given. split; [exact H|]. split; [exact P|].
  split; [exact L | exact I].
Defined.
